(** * esri-leaflet, [src/Util.js]: a shallow embedding and its properties

    The module is a set of conversion helpers between Leaflet's view objects
    and the ArcGIS REST formats.  Every function of [Util.js] that a property
    below talks about is transcribed here as a Rocq function:

    - JavaScript exceptions are explicit: a function that can throw returns a
      [completion];
    - [undefined] is [None] wherever a value may be absent;
    - numbers are only copied and compared by the code, never computed with
      (except [b.score - a.score] and the attribution width), so the finite
      ones are canonical rationals [Qc], whose equality is Leibniz equality;
      the number [NaN] is a value of its own where the code can meet it;
    - the functions imported from Leaflet are transcribed from Leaflet 1.x:
      [latLng], [latLngBounds] and [intersects] in [Module Leaflet],
      [Util.trim] beside [cleanUrl]; [String.prototype.match] on a string
      pattern is [Module RegExp];
    - the geometry converters of [@esri/arcgis-to-geojson-utils], Leaflet's
      longitude wrapping, the option [attributionWidthOffset] and what the
      [jsonp] lookup delivers are section variables. *)

From Stdlib Require Import QArith Qcanon Ascii String DecimalString.
From stdpp Require Import base numbers list strings gmap sorting.

Local Open Scope string_scope.
Local Open Scope list_scope.
Set Warnings "-register-all".

(** ** JavaScript completions *)

Inductive JsError : Type :=
  | TypeError          (* property read on [undefined] or [null], call of a non-function *)
  | InvalidLatLng      (* Leaflet: [new Error('Invalid LatLng object: ...')] *)
  | SyntaxError.       (* [new RegExp(pattern)] on an ill-formed pattern *)

(** [Outside] is not an outcome of JavaScript: it marks a run that leaves the
    fragment modelled here (a [RegExp] pattern beyond the syntax of
    [Module RegExp] below, the conversion of a numeric string to a number).
    What the model says of such a run, the state beside it included, says
    nothing of the code: no property below is established through it. *)
Inductive completion (A : Type) : Type :=
  | Returns (a : A)
  | Throws (e : JsError)
  | Outside.

Arguments Returns {A} a.
Arguments Throws {A} e.
Arguments Outside {A}.

Global Instance completion_ret : MRet completion := @Returns.
Global Instance completion_bind : MBind completion := fun A B k c =>
  match c with
  | Returns a => k a
  | Throws e => Throws e
  | Outside => Outside
  end.

(** ** JavaScript strings: white space and numeric strings

    A string is a sequence of code units; the code units of a [string] are
    the 256 values of [ascii] (the Latin-1 range). *)

(** White space and line terminators among the code units below 256. *)
Definition is_white_space (c : ascii) : bool :=
  let n := nat_of_ascii c in
  ((9 <=? n)%nat && (n <=? 13)%nat) || (n =? 32)%nat || (n =? 160)%nat.

Fixpoint trimStart (s : string) : string :=
  match s with
  | EmptyString => EmptyString
  | String c s' => if is_white_space c then trimStart s' else s
  end.

Fixpoint trimEnd (s : string) : string :=
  match s with
  | EmptyString => EmptyString
  | String c s' =>
      match trimEnd s' with
      | EmptyString => if is_white_space c then EmptyString else String c EmptyString
      | t => String c t
      end
  end.

Definition is_digit_below (base : nat) (c : ascii) : bool :=
  (48 <=? nat_of_ascii c)%nat && (nat_of_ascii c <? 48 + base)%nat.

Definition is_hex_digit (c : ascii) : bool :=
  let n := nat_of_ascii c in
  is_digit_below 10 c || ((65 <=? n)%nat && (n <=? 70)%nat)
  || ((97 <=? n)%nat && (n <=? 102)%nat).

Fixpoint skip (test : ascii -> bool) (s : list ascii) : list ascii :=
  match s with
  | c :: s' => if test c then skip test s' else s
  | [] => []
  end.

(** [s] is one digit or more, and nothing else. *)
Definition digits_only (test : ascii -> bool) (s : list ascii) : bool :=
  match s with
  | [] => false
  | _ => forallb test s
  end.

(** DecimalDigits at the start of [s]: what follows them. *)
Definition DecimalDigits (s : list ascii) : option (list ascii) :=
  match s with
  | c :: s' => if is_digit_below 10 c then Some (skip (is_digit_below 10) s') else None
  | [] => None
  end.

(** [s] is empty or an ExponentPart: [e] or [E], a sign or none, digits. *)
Definition ExponentPart_opt (s : list ascii) : bool :=
  match s with
  | [] => true
  | c :: s' =>
      (Ascii.eqb c "e" || Ascii.eqb c "E")
      && match s' with
         | sign :: s'' =>
             if Ascii.eqb sign "+" || Ascii.eqb sign "-"
             then digits_only (is_digit_below 10) s''
             else digits_only (is_digit_below 10) s'
         | [] => false
         end
  end.

(** StrUnsignedDecimalLiteral:
    [Infinity], [digits . digits? exponent?], [. digits exponent?] or
    [digits exponent?]. *)
Definition StrUnsignedDecimalLiteral (s : list ascii) : bool :=
  if bool_decide (s = list_ascii_of_string "Infinity") then true
  else
    match s with
    | c :: s' =>
        if Ascii.eqb c "." then
          match DecimalDigits s' with
          | Some rest => ExponentPart_opt rest
          | None => false
          end
        else
          match DecimalDigits s with
          | Some (d :: rest) =>
              if Ascii.eqb d "." then ExponentPart_opt (skip (is_digit_below 10) rest)
              else ExponentPart_opt (d :: rest)
          | Some [] => true
          | None => false
          end
    | [] => false
    end.

(** StrDecimalLiteral: a sign or none before the unsigned literal. *)
Definition StrDecimalLiteral (s : list ascii) : bool :=
  match s with
  | c :: s' =>
      if Ascii.eqb c "+" || Ascii.eqb c "-" then StrUnsignedDecimalLiteral s'
      else StrUnsignedDecimalLiteral s
  | [] => false
  end.

(** NonDecimalIntegerLiteral: [0x], [0o] or [0b] (in either case) before
    digits of that base, without a sign. *)
Definition NonDecimalIntegerLiteral (s : list ascii) : bool :=
  match s with
  | zero :: c :: s' =>
      Ascii.eqb zero "0"
      && if Ascii.eqb c "x" || Ascii.eqb c "X" then digits_only is_hex_digit s'
         else if Ascii.eqb c "o" || Ascii.eqb c "O" then digits_only (is_digit_below 8) s'
         else if Ascii.eqb c "b" || Ascii.eqb c "B" then digits_only (is_digit_below 2) s'
         else false
  | _ => false
  end.

(** [StringToNumber(s)] of ECMAScript 2015 is a number other than [NaN]:
    [s], without the white space around it, is empty (the number 0) or a
    StrNumericLiteral. *)
Definition is_numeric_string (s : string) : bool :=
  match list_ascii_of_string (trimEnd (trimStart s)) with
  | [] => true
  | t => StrDecimalLiteral t || NonDecimalIntegerLiteral t
  end.

(** ** The part of Leaflet 1.x that [Util.js] calls *)

Module Leaflet.

(** A coordinate as a field of an extent may hold it: a finite number, the
    number [NaN], or a string.  ArcGIS Server sends the string ['NaN'] for a
    null geometry. *)
Inductive coord : Type :=
  | Num (n : Qc)
  | NaN
  | Str (s : string).

(** The sentinel of a null geometry. *)
Definition NaNString : coord := Str "NaN".

(** The global [isNaN(x)]: [ToNumber(x)] is [NaN]. *)
Definition isNaN (x : coord) : bool :=
  match x with
  | Num _ => false
  | NaN => true
  | Str s => negb (is_numeric_string s)
  end.

(** [L.LatLng]: the constructor stores numbers only. *)
Record LatLng : Type := mkLatLng { lat : Qc; lng : Qc }.

(** [L.latLng(a, b)] on two scalars is [new LatLng(a, b)]: the constructor
    throws when [isNaN(lat) || isNaN(lng)], and stores [+lat] and [+lng]
    otherwise.  The number that [+] makes of a numeric string (the double
    nearest to its value) is not computed here. *)
Definition latLng (a b : coord) : completion LatLng :=
  if isNaN a || isNaN b then Throws InvalidLatLng
  else
    match a, b with
    | Num y, Num x => Returns (mkLatLng y x)
    | _, _ => Outside
    end.

Definition Math_min (a b : Qc) : Qc := if decide (a ≤ b)%Qc then a else b.
Definition Math_max (a b : Qc) : Qc := if decide (a ≤ b)%Qc then b else a.

(** [L.LatLngBounds] with both corners set. *)
Record LatLngBounds : Type :=
  mkBounds { _southWest : LatLng; _northEast : LatLng }.

Definition getSouthWest (b : LatLngBounds) : LatLng := _southWest b.
Definition getNorthEast (b : LatLngBounds) : LatLng := _northEast b.

(** [LatLngBounds.prototype.extend(obj)] for a [LatLng]: the first point
    sets both corners, a later one moves each corner by [Math.min] and
    [Math.max]. *)
Definition extend (b : option LatLngBounds) (p : LatLng) : LatLngBounds :=
  match b with
  | None => mkBounds (mkLatLng (lat p) (lng p)) (mkLatLng (lat p) (lng p))
  | Some (mkBounds sw ne) =>
      mkBounds
        (mkLatLng (Math_min (lat p) (lat sw)) (Math_min (lng p) (lng sw)))
        (mkLatLng (Math_max (lat p) (lat ne)) (Math_max (lng p) (lng ne)))
  end.

(** [L.latLngBounds(corner1, corner2)] is [new LatLngBounds(corner1, corner2)]:
    it extends an empty bounds by each corner in turn. *)
Definition latLngBounds (corner1 corner2 : LatLng) : LatLngBounds :=
  extend (Some (extend None corner1)) corner2.

(** What [boundsToExtent] may be given: [L.latLngBounds(a)] returns [a]
    itself when it is an instance, and builds one from an array of two
    corners otherwise. *)
Inductive BoundsExpression : Type :=
  | Instance (b : LatLngBounds)
  | Corners (corner1 corner2 : LatLng).

Definition toLatLngBounds (a : BoundsExpression) : LatLngBounds :=
  match a with
  | Instance b => b
  | Corners c1 c2 => latLngBounds c1 c2
  end.

(** [LatLngBounds.prototype.intersects(bounds)]. *)
Definition intersects (this bounds : LatLngBounds) : bool :=
  let sw := _southWest this in
  let ne := _northEast this in
  let sw2 := getSouthWest bounds in
  let ne2 := getNorthEast bounds in
  let latIntersects :=
    bool_decide (lat sw ≤ lat ne2)%Qc && bool_decide (lat sw2 ≤ lat ne)%Qc in
  let lngIntersects :=
    bool_decide (lng sw ≤ lng ne2)%Qc && bool_decide (lng sw2 ≤ lng ne)%Qc in
  latIntersects && lngIntersects.

(** A bounds object whose corners are in order, as every bounds built by
    the constructor is. *)
Definition ordered (b : LatLngBounds) : Prop :=
  (lat (_southWest b) ≤ lat (_northEast b))%Qc /\
  (lng (_southWest b) ≤ lng (_northEast b))%Qc.

End Leaflet.

Import Leaflet.

(** ** Bounding-box converters ([Util.js], lines 18-42) *)

Record SpatialReference : Type := { wkid : Z }.

Record Extent : Type := mkExtent {
  xmin : coord;
  ymin : coord;
  xmax : coord;
  ymax : coord;
  spatialReference : option SpatialReference
}.

(** [x !== 'NaN'] *)
Definition not_NaN_string (x : coord) : bool :=
  match x with
  | Str s => negb (String.eqb s "NaN")
  | _ => true
  end.

(** [null] is [None]. *)
Definition extentToBounds (extent : Extent) : completion (option LatLngBounds) :=
  if not_NaN_string (xmin extent) && not_NaN_string (ymin extent)
     && not_NaN_string (xmax extent) && not_NaN_string (ymax extent)
  then
    sw ← latLng (ymin extent) (xmin extent);
    ne ← latLng (ymax extent) (xmax extent);
    Returns (Some (latLngBounds sw ne))
  else
    Returns None.

(** The extent has a ['NaN'] field. *)
Definition some_NaN (e : Extent) : Prop :=
  xmin e = NaNString \/ ymin e = NaNString \/ xmax e = NaNString \/ ymax e = NaNString.

(** [isNaN] holds of a field of the extent. *)
Definition some_isNaN (e : Extent) : Prop :=
  isNaN (xmin e) = true \/ isNaN (ymin e) = true \/
  isNaN (xmax e) = true \/ isNaN (ymax e) = true.

(** The coordinate is a string that stands for a number. *)
Definition numeric_string (x : coord) : bool :=
  match x with
  | Str s => is_numeric_string s
  | _ => false
  end.

(** No field of the extent is a numeric string. *)
Definition no_numeric_string (e : Extent) : Prop :=
  numeric_string (xmin e) = false /\ numeric_string (ymin e) = false /\
  numeric_string (xmax e) = false /\ numeric_string (ymax e) = false.

Definition boundsToExtent (bounds : BoundsExpression) : Extent :=
  let bounds := toLatLngBounds bounds in
  {| xmin := Num (lng (getSouthWest bounds));
     ymin := Num (lat (getSouthWest bounds));
     xmax := Num (lng (getNorthEast bounds));
     ymax := Num (lat (getNorthEast bounds));
     spatialReference := Some {| wkid := 4326 |} |}.

(** ** JavaScript values *)

(** What [instanceof] can tell about an object, with the data of Leaflet's
    own classes.  An [L.LatLngBounds] has its two corners, or none: a bounds
    object made without arguments ([new L.LatLngBounds()]) and not extended
    yet is empty, and its [getSouthWest()] is [undefined]. *)
Inductive jsclass : Type :=
  | ClsLatLngBounds (b : option LatLngBounds)
  | ClsLatLng (p : LatLng)
  | ClsGeoJSON          (* [L.GeoJSON], a layer group *)
  | ClsObject.          (* any other object *)

(** The properties of an object are listed as property reads resolve them
    (own and inherited), in enumeration order.  A method is given by what a
    call without arguments returns. *)
Inductive value : Type :=
  | VUndefined
  | VNull
  | VBool (b : bool)
  | VNumber (n : Qc)
  | VString (s : string)
  | VArray (elems : list value)
  | VFunction (result : value)
  | VObject (cls : jsclass) (props : list (string * value)).

Fixpoint assoc {A} (key : string) (props : list (string * A)) : option A :=
  match props with
  | [] => None
  | (k, v) :: rest => if String.eqb k key then Some v else assoc key rest
  end.

(** [v.key] (for the keys [Util.js] reads: none of them is a property of a
    primitive, an array or a function). *)
Definition get (v : value) (key : string) : completion value :=
  match v with
  | VUndefined | VNull => Throws TypeError
  | VObject _ props => Returns (default VUndefined (assoc key props))
  | _ => Returns VUndefined
  end.

(** The character of [s] at index [i], as a string. *)
Fixpoint char_at (s : string) (i : nat) : option string :=
  match s, i with
  | EmptyString, _ => None
  | String c _, O => Some (String c EmptyString)
  | String _ s', S i' => char_at s' i'
  end.

(** [v[i]]: an element of an array, a character of a string, the property
    of an object under the decimal numeral of [i]. *)
Definition index (v : value) (i : nat) : completion value :=
  match v with
  | VUndefined | VNull => Throws TypeError
  | VArray elems => Returns (default VUndefined (elems !! i))
  | VString s => Returns (default VUndefined (VString <$> char_at s i))
  | VObject _ props =>
      Returns (default VUndefined (assoc (NilEmpty.string_of_uint (Nat.to_uint i)) props))
  | _ => Returns VUndefined
  end.

(** [v()] *)
Definition call (v : value) : completion value :=
  match v with
  | VFunction result => Returns result
  | _ => Throws TypeError
  end.

(** [ToBoolean] *)
Definition truthy (v : value) : bool :=
  match v with
  | VUndefined | VNull => false
  | VBool b => b
  | VNumber n => negb (bool_decide (n = 0%Qc))
  | VString s => negb (String.eqb s "")
  | _ => true
  end.

(** An optional string in a condition: [undefined] and [''] are falsy. *)
Definition truthy_string (o : option string) : bool :=
  match o with
  | Some s => negb (String.eqb s "")
  | None => false
  end.

(** [a || b] on optional strings. *)
Definition or_string (a b : option string) : option string :=
  if truthy_string a then a else b.

Definition is_lower (c : ascii) : bool :=
  (97 <=? nat_of_ascii c)%nat && (nat_of_ascii c <=? 122)%nat.

(** Case folding of the [i] flag: only the letters a-z fold onto A-Z, a code
    unit above 127 never folds onto one below. *)
Definition canonicalize (c : ascii) : ascii :=
  if is_lower c then ascii_of_nat (nat_of_ascii c - 32) else c.

Fixpoint canonicalize_string (s : string) : string :=
  match s with
  | EmptyString => EmptyString
  | String c s' => String (canonicalize c) (canonicalize_string s')
  end.

(** [var knownFieldNames = /^(OBJECTID|FID|OID|ID)$/i;]
    and [s.match(knownFieldNames)] as a condition. *)
Definition knownFieldNames : list string := ["OBJECTID"; "FID"; "OID"; "ID"].

Definition match_knownFieldNames (s : string) : bool :=
  existsb (String.eqb (canonicalize_string s)) knownFieldNames.

(** ** Identifier-field resolution ([Util.js], lines 44-81) *)

Record Field : Type := mkField { name : string; type : string }.

(** A raw feature of a response.  [attributes] lists the keys as [for ... in]
    enumerates them. *)
Record Feature : Type := mkFeature {
  attributes : option (list (string * value));
  geometry : value
}.

Record Response : Type := mkResponse {
  objectIdFieldName : option string;
  fields : option (list Field);
  features : option (list Feature);
  results : option (list Feature)
}.

(** [for (j = ...; j <= fields.length - 1; j++)
       { if (test(fields[j])) { result = fields[j].name; break; } }]
    run on the fields from index [j] on. *)
Fixpoint scan_fields (test : Field -> bool) (fields : list Field)
    (result : option string) : option string :=
  match fields with
  | [] => result
  | f :: rest => if test f then Some (name f) else scan_fields test rest result
  end.

(** [fields[j].type === 'esriFieldTypeOID'] *)
Definition has_OID_type (f : Field) : bool := String.eqb (type f) "esriFieldTypeOID".

(** [fields[j].name.match(knownFieldNames)] *)
Definition has_known_name (f : Field) : bool := match_knownFieldNames (name f).

Definition _findIdAttributeFromResponse (response : Response) : option string :=
  let result := None in
  if truthy_string (objectIdFieldName response) then
    objectIdFieldName response
  else
    match fields response with
    | Some fs =>
        let result := scan_fields has_OID_type fs result in
        if negb (truthy_string result) then scan_fields has_known_name fs result
        else result
    | None => result
    end.

(** [for (var key in feature.attributes) { if (key.match(knownFieldNames)) return key; }]:
    no iteration at all when [attributes] is [undefined]. *)
Fixpoint scan_keys (keys : list string) : option string :=
  match keys with
  | [] => None
  | key :: rest => if match_knownFieldNames key then Some key else scan_keys rest
  end.

Definition _findIdAttributeFromFeature (feature : Feature) : option string :=
  match attributes feature with
  | Some attrs => scan_keys (map fst attrs)
  | None => None
  end.

(** ** Feature-collection assembly ([Util.js], lines 83-107) *)

Record FeatureCollection : Type := mkFeatureCollection {
  fc_type : string;
  fc_features : list value
}.

(** [response.features || response.results]: an array is truthy. *)
Definition features_or_results (response : Response) : option (list Feature) :=
  match features response with
  | Some l => Some l
  | None => results response
  end.

Section FeatureCollections.

(** [arcgisToGeoJSON] of [@esri/arcgis-to-geojson-utils]. *)
Variable a2g : Feature -> option string -> value.

Definition arcgisToGeoJSON (arcgis : Feature) (idAttr : option string) : value :=
  a2g arcgis idAttr.

(** The loop [for (var i = features.length - 1; i >= 0; i--)] with [n]
    iterations left, that is [i = n - 1]; [out] is
    [featureCollection.features].  Reading past the end of the array gives
    [undefined], whose [attributes] cannot be read. *)
Fixpoint push_features (features : list Feature) (objectIdField : option string)
    (n : nat) (out : list value) : completion (list value) :=
  match n with
  | O => Returns out
  | S i =>
      match features !! i with
      | Some f =>
          let feature :=
            arcgisToGeoJSON f (or_string objectIdField (_findIdAttributeFromFeature f)) in
          push_features features objectIdField i (out ++ [feature])
      | None => Throws TypeError
      end
  end.

Definition responseToFeatureCollection (response : Response)
    (idAttribute : option string) : completion FeatureCollection :=
  let features := features_or_results response in
  match features with
  | None => Throws TypeError       (* [features.length] on [undefined] *)
  | Some features =>
      let count := length features in
      let objectIdField :=
        if truthy_string idAttribute then idAttribute
        else _findIdAttributeFromResponse response in
      let featureCollection := mkFeatureCollection "FeatureCollection" [] in
      if (0 <? count)%nat then
        out ← push_features features objectIdField (length features)
                (fc_features featureCollection);
        Returns (mkFeatureCollection (fc_type featureCollection) out)
      else
        Returns featureCollection
  end.

End FeatureCollections.

(** ** URL normalisation ([Util.js], lines 109-120) *)

(** Leaflet's [Util.trim(str)]: [str.trim()]. *)
Definition trim (str : string) : string := trimEnd (trimStart str).

(** [s[s.length - 1]] *)
Fixpoint last_char (s : string) : option ascii :=
  match s with
  | EmptyString => None
  | String c EmptyString => Some c
  | String _ s' => last_char s'
  end.

Definition cleanUrl (url : string) : string :=
  let url := trim url in
  if negb (bool_decide (last_char url = Some "/"%char)) then url +:+ "/" else url.

(** ** Geometry types ([Util.js], lines 128-152) *)

Definition geojsonTypeToArcGIS (geoJsonType : value) : option string :=
  let arcgisGeometryType := None in
  match geoJsonType with
  | VString s =>
      if String.eqb s "Point" then Some "esriGeometryPoint"
      else if String.eqb s "MultiPoint" then Some "esriGeometryMultipoint"
      else if String.eqb s "LineString" then Some "esriGeometryPolyline"
      else if String.eqb s "MultiLineString" then Some "esriGeometryPolyline"
      else if String.eqb s "Polygon" then Some "esriGeometryPolygon"
      else if String.eqb s "MultiPolygon" then Some "esriGeometryPolygon"
      else arcgisGeometryType
  | _ => arcgisGeometryType
  end.

(** ** Regular expressions: [new RegExp(pattern)] and searching

    [String.prototype.match] compiles a string argument with [new RegExp].
    The fragment of the pattern syntax modelled here: alternation [|],
    groups [( )] and [(?: )], the quantifiers [*], [+], [?] (greedy or lazy),
    the wildcard [.], a backslash before a syntax character, and any other
    character standing for itself.  Assertions, classes, braces and the
    other escapes are left out ([Unsupported]).  The fragment has neither
    backreferences nor lookaround, so a match exists exactly when some
    substring is in the language of the pattern. *)

Module RegExp.

Inductive regex : Type :=
  | Void
  | Eps
  | Chr (c : ascii)
  | Dot
  | Seq (r1 r2 : regex)
  | Alt (r1 r2 : regex)
  | Star (r : regex).

Inductive parsed (A : Type) : Type :=
  | Ok (a : A)
  | Malformed          (* a SyntaxError *)
  | Unsupported.

Arguments Ok {A} a.
Arguments Malformed {A}.
Arguments Unsupported {A}.

Definition one_of (chars : string) (c : ascii) : bool :=
  existsb (Ascii.eqb c) (list_ascii_of_string chars).

Definition is_syntax_character : ascii -> bool := one_of "^$\.*+?()[]{}|".

(** The [?] that makes a quantifier lazy. *)
Definition lazy_mark (s : list ascii) : list ascii :=
  match s with
  | c :: s' => if Ascii.eqb c "?" then s' else s
  | [] => s
  end.

Definition parse_quantifier (r : regex) (s : list ascii) : regex * list ascii :=
  match s with
  | c :: s' =>
      if Ascii.eqb c "*" then (Star r, lazy_mark s')
      else if Ascii.eqb c "+" then (Seq r (Star r), lazy_mark s')
      else if Ascii.eqb c "?" then (Alt r Eps, lazy_mark s')
      else (r, s)
  | [] => (r, s)
  end.

(** What follows an opening parenthesis: the body of a capturing or of a
    [(?: )] group; [None] for the other [(?] forms. *)
Definition group_body (s : list ascii) : option (list ascii) :=
  match s with
  | c :: s' =>
      if Ascii.eqb c "?" then
        match s' with
        | d :: s'' => if Ascii.eqb d ":" then Some s'' else None
        | [] => None
        end
      else Some s
  | [] => Some s
  end.

(** Recursive descent along the grammar Disjunction / Alternative / Term;
    every call spends one unit of [fuel]. *)
Fixpoint parse_disjunction (fuel : nat) (s : list ascii) : parsed (regex * list ascii) :=
  match fuel with
  | O => Unsupported
  | S fuel =>
      match parse_alternative fuel s with
      | Ok (r1, c :: s') =>
          if Ascii.eqb c "|" then
            match parse_disjunction fuel s' with
            | Ok (r2, s'') => Ok (Alt r1 r2, s'')
            | e => e
            end
          else Ok (r1, c :: s')
      | other => other
      end
  end
with parse_alternative (fuel : nat) (s : list ascii) : parsed (regex * list ascii) :=
  match fuel with
  | O => Unsupported
  | S fuel =>
      match s with
      | [] => Ok (Eps, [])
      | c :: _ =>
          if one_of "|)" c then Ok (Eps, s)
          else
            match parse_term fuel s with
            | Ok (r1, s') =>
                match parse_alternative fuel s' with
                | Ok (r2, s'') => Ok (Seq r1 r2, s'')
                | e => e
                end
            | e => e
            end
      end
  end
with parse_term (fuel : nat) (s : list ascii) : parsed (regex * list ascii) :=
  match fuel with
  | O => Unsupported
  | S fuel =>
      match s with
      | [] => Malformed
      | c :: s' =>
          if Ascii.eqb c "(" then
            match group_body s' with
            | None => Unsupported
            | Some body =>
                match parse_disjunction fuel body with
                | Ok (r, d :: rest) =>
                    if Ascii.eqb d ")" then Ok (parse_quantifier r rest)
                    else Malformed
                | Ok (_, []) => Malformed                (* unterminated group *)
                | e => e
                end
            end
          else if Ascii.eqb c "\" then
            match s' with
            | [] => Malformed                            (* \ at end of pattern *)
            | d :: s'' =>
                if is_syntax_character d || Ascii.eqb d "/"
                then Ok (parse_quantifier (Chr d) s'')
                else Unsupported
            end
          else if Ascii.eqb c "." then Ok (parse_quantifier Dot s')
          else if one_of "*+?" c then Malformed          (* nothing to repeat *)
          else if is_syntax_character c then Unsupported
          else Ok (parse_quantifier (Chr c) s')
      end
  end.

(** [new RegExp(pattern)] *)
Definition compile (pattern : string) : completion regex :=
  let s := list_ascii_of_string pattern in
  match parse_disjunction (4 * length s + 4) s with
  | Ok (r, []) => Returns r
  | Ok (_, _ :: _) => Throws SyntaxError                 (* unmatched ) *)
  | Malformed => Throws SyntaxError
  | Unsupported => Outside
  end.

Fixpoint nullable (r : regex) : bool :=
  match r with
  | Void | Chr _ | Dot => false
  | Eps | Star _ => true
  | Seq r1 r2 => nullable r1 && nullable r2
  | Alt r1 r2 => nullable r1 || nullable r2
  end.

Definition is_line_terminator (c : ascii) : bool :=
  (nat_of_ascii c =? 10)%nat || (nat_of_ascii c =? 13)%nat.

(** The derivative of [r] by the character [c]. *)
Fixpoint deriv (c : ascii) (r : regex) : regex :=
  match r with
  | Void | Eps => Void
  | Chr d => if Ascii.eqb c d then Eps else Void
  | Dot => if is_line_terminator c then Void else Eps
  | Seq r1 r2 =>
      if nullable r1 then Alt (Seq (deriv c r1) r2) (deriv c r2)
      else Seq (deriv c r1) r2
  | Alt r1 r2 => Alt (deriv c r1) (deriv c r2)
  | Star r1 => Seq (deriv c r1) (Star r1)
  end.

(** Some prefix of [s] is matched by [r]. *)
Fixpoint match_here (r : regex) (s : list ascii) : bool :=
  nullable r ||
  match s with
  | [] => false
  | c :: s' => match_here (deriv c r) s'
  end.

(** Some substring of [s] is matched by [r]. *)
Fixpoint search (r : regex) (s : list ascii) : bool :=
  match_here r s ||
  match s with
  | [] => false
  | _ :: s' => search r s'
  end.

(** [subject.match(pattern)] as a condition: an array is truthy, [null]
    is falsy. *)
Definition String_match (subject pattern : string) : completion bool :=
  r ← compile pattern;
  Returns (search r (list_ascii_of_string subject)).

End RegExp.

(** ** The console ([Util.js], lines 154-158) *)

Record Console : Type := mkConsole {
  has_warn : bool;              (* [console && console.warn] *)
  warned : list string          (* what [console.warn] has received *)
}.

Definition warn (message : string) (console : Console) : Console :=
  if has_warn console then mkConsole (has_warn console) (warned console ++ [message])
  else console.

(** ** Query geometry ([Util.js], lines 217-274) *)

Inductive ParamGeometry : Type :=
  | GExtent (e : Extent)
  | GArcGIS (g : value).

(** [null] is [None]. *)
Record Params : Type := mkParams {
  p_geometry : option ParamGeometry;
  p_geometryType : option string
}.

Definition invalid_geometry_warning : string :=
  "invalid geometry passed to spatial query. Should be L.LatLng, L.LatLngBounds, L.Marker or a GeoJSON Point, Line, Polygon or MultiPolygon object".

Definition is_string (v : value) (s : string) : bool :=
  match v with
  | VString t => String.eqb t s
  | _ => false
  end.

Section Geometry.

(** [geojsonToArcGIS] of [@esri/arcgis-to-geojson-utils]. *)
Variable g2a : value -> option string -> value.

Definition geojsonToArcGIS (geojson : value) (idAttr : option string) : value :=
  g2a geojson idAttr.

(** Each [if] statement of [_setGeometry] is a step on the variables
    [geometry] and [params]. *)

(** [if (geometry.getLatLng) { geometry = geometry.getLatLng(); }] *)
Definition step_getLatLng (geometry : value) : completion value :=
  getLatLng ← get geometry "getLatLng";
  if truthy getLatLng then call getLatLng else Returns geometry.

(** [if (geometry instanceof LatLng)
       { geometry = { type: 'Point', coordinates: [geometry.lng, geometry.lat] }; }] *)
Definition step_LatLng (geometry : value) : value :=
  match geometry with
  | VObject (ClsLatLng p) _ =>
      VObject ClsObject
        [("type", VString "Point");
         ("coordinates", VArray [VNumber (lng p); VNumber (lat p)])]
  | _ => geometry
  end.

(** [if (geometry instanceof GeoJSON) {
       geometry = geometry.getLayers()[0].feature.geometry;
       params.geometry = geojsonToArcGIS(geometry);
       params.geometryType = geojsonTypeToArcGIS(geometry.type); }] *)
Definition step_GeoJSON (geometry : value) (params : Params) : completion (value * Params) :=
  match geometry with
  | VObject ClsGeoJSON _ =>
      getLayers ← get geometry "getLayers";
      layers ← call getLayers;
      layer ← index layers 0;
      feature ← get layer "feature";
      geometry ← get feature "geometry";
      let g := geojsonToArcGIS geometry None in
      t ← get geometry "type";
      Returns (geometry, mkParams (Some (GArcGIS g)) (geojsonTypeToArcGIS t))
  | _ => Returns (geometry, params)
  end.

(** [if (geometry.toGeoJSON) { geometry = geometry.toGeoJSON(); }] *)
Definition step_toGeoJSON (geometry : value) : completion value :=
  toGeoJSON ← get geometry "toGeoJSON";
  if truthy toGeoJSON then call toGeoJSON else Returns geometry.

(** [if (geometry.type === 'Feature') { geometry = geometry.geometry; }] *)
Definition step_Feature (geometry : value) : completion value :=
  t ← get geometry "type";
  if is_string t "Feature" then get geometry "geometry" else Returns geometry.

(** The last [if] statement, the warning and the final [return]: the
    returned value ([undefined] is [None]) and the console afterwards. *)
Definition step_confirm (geometry : value) (console : Console)
    : completion (option Params * Console) :=
  t ← get geometry "type";
  if is_string t "Point" || is_string t "LineString"
     || is_string t "Polygon" || is_string t "MultiPolygon"
  then
    let params :=
      mkParams (Some (GArcGIS (geojsonToArcGIS geometry None)))
               (geojsonTypeToArcGIS t) in
    Returns (Some params, console)
  else
    (* warn the user if we havn't found an appropriate object *)
    Returns (None, warn invalid_geometry_warning console).

Definition _setGeometry (geometry : value) (console : Console)
    : completion (option Params * Console) :=
  let params := mkParams None None in
  match geometry with
  | VObject (ClsLatLngBounds (Some b)) _ =>
      (* convert bounds to extent and finish *)
      let params :=
        mkParams (Some (GExtent (boundsToExtent (Instance b))))
                 (Some "esriGeometryEnvelope") in
      Returns (Some params, console)
  | VObject (ClsLatLngBounds None) _ =>
      (* [boundsToExtent] on an empty bounds object: [bounds.getSouthWest()]
         is [undefined], and reading its [lng] throws *)
      Throws TypeError
  | _ =>
      (* convert L.Marker > L.LatLng *)
      geometry ← step_getLatLng geometry;
      (* convert L.LatLng to a geojson point and continue *)
      let geometry := step_LatLng geometry in
      (* handle L.GeoJSON, pull out the first geometry *)
      '(geometry, params) ← step_GeoJSON geometry params;
      (* Handle L.Polyline and L.Polygon *)
      geometry ← step_toGeoJSON geometry;
      (* handle GeoJSON feature by pulling out the geometry *)
      geometry ← step_Feature geometry;
      (* confirm that our GeoJSON is a point, line or polygon *)
      step_confirm geometry console
  end.

End Geometry.

(** ** Attribution ([Util.js], lines 160-163 and 276-339) *)

Inductive CssLength : Type := Px (n : Qc).

(** The element [.esri-dynamic-attribution]: the string last assigned to
    its [innerHTML] (the browser parses it as HTML, so that what the element
    holds afterwards is this string only when it has no markup in it) and
    its [style.maxWidth]. *)
Record Element : Type := mkElement {
  innerHTML : string;
  style_maxWidth : option CssLength
}.

(** [map.attributionControl]: what [_container.querySelector] finds. *)
Record AttributionControl : Type := mkControl {
  esri_dynamic_attribution : option Element
}.

Record Attribution : Type := mkAttribution {
  attribution : string;
  score : Qc;
  bounds : LatLngBounds;
  minZoom : Qc;
  maxZoom : Qc
}.

(** The map: its view ([getBounds()], [getZoom()], [getSize().x]), the two
    properties [Util.js] reads and writes, and the events fired so far
    (name and the [attribution] of the payload).  [fire] is the entry in
    this list: the listeners it runs are not part of the model. *)
Record Map : Type := mkMap {
  getBounds : LatLngBounds;
  getZoom : Qc;
  getSize_x : Qc;
  attributionControl : option AttributionControl;
  _esriAttributions : option (list Attribution);
  fired : list (string * string)
}.

Record CoverageArea : Type := mkCoverageArea {
  bbox : Qc * Qc * Qc * Qc;
  ca_score : Qc;
  zoomMin : Qc;
  zoomMax : Qc
}.

Record Contributor : Type := mkContributor {
  c_attribution : string;
  coverageAreas : list CoverageArea
}.

Record AttributionData : Type := mkAttributionData {
  contributors : list Contributor
}.

(** The error object a failed lookup hands to the callback. *)
Record LookupError : Type := mkLookupError { code : Z; message : string }.

(** [s.substr(n)] *)
Fixpoint substr (n : nat) (s : string) : string :=
  match n, s with
  | O, _ => s
  | S n', String _ s' => substr n' s'
  | S _, EmptyString => EmptyString
  end.

(** [Array.prototype.sort] with the comparator [b.score - a.score]: a stable
    sort by descending score, written as an insertion sort. *)
Fixpoint insert_by_score (a : Attribution) (sorted : list Attribution) : list Attribution :=
  match sorted with
  | [] => [a]
  | b :: rest =>
      if bool_decide (score b < score a)%Qc then a :: b :: rest
      else b :: insert_by_score a rest
  end.

Definition sort_by_score (l : list Attribution) : list Attribution :=
  foldl (fun sorted a => insert_by_score a sorted) [] l.

Section Attributions.

(** [options.attributionWidthOffset] of [./Options]. *)
Variable attributionWidthOffset : Qc.

(** Leaflet's [LatLng.prototype.wrap]. *)
Variable wrap : LatLng -> LatLng.

(** What the lookup of [./Request]'s [jsonp] hands to its callback for a
    url: the error, if any, and the response. *)
Variable jsonp : string -> option LookupError * option AttributionData.

Definition calcAttributionWidth (map : Map) : CssLength :=
  Px (getSize_x map - attributionWidthOffset)%Qc.

(** The loop of [_updateMapAttribution] over [oldAttributions] from index
    [i] on; [entry] is the variable [attribution] of the source. *)
Fixpoint concat_attributions (wrappedBounds : LatLngBounds) (zoom : Qc)
    (oldAttributions : list Attribution) (newAttributions : string)
    : completion string :=
  match oldAttributions with
  | [] => Returns newAttributions
  | entry :: rest =>
      let text := attribution entry in
      found ← RegExp.String_match newAttributions text;
      let newAttributions :=
        if negb found
           && intersects (bounds entry) wrappedBounds
           && bool_decide (minZoom entry ≤ zoom)%Qc
           && bool_decide (zoom ≤ maxZoom entry)%Qc
        then newAttributions +:+ (", " +:+ text)
        else newAttributions in
      concat_attributions wrappedBounds zoom rest newAttributions
  end.

(** [_updateMapAttribution(evt)] with [evt.target] the map: the map
    afterwards and how the call completes.  Nothing is written before the
    last point where the code of the function itself can throw. *)
Definition _updateMapAttribution (map : Map) : Map * completion unit :=
  let oldAttributions := _esriAttributions map in
  match attributionControl map, oldAttributions with
  | Some control, Some oldAttributions =>
      let newAttributions := "" in
      let bounds := getBounds map in
      let wrappedBounds :=
        latLngBounds (wrap (getSouthWest bounds)) (wrap (getNorthEast bounds)) in
      let zoom := getZoom map in
      match concat_attributions wrappedBounds zoom oldAttributions newAttributions with
      | Returns newAttributions =>
          let newAttributions := substr 2 newAttributions in
          match esri_dynamic_attribution control with
          | Some _ =>
              let attributionElement :=
                mkElement newAttributions (Some (calcAttributionWidth map)) in
              (mkMap (getBounds map) (getZoom map) (getSize_x map)
                     (Some (mkControl (Some attributionElement)))
                     (_esriAttributions map)
                     (fired map ++ [("attributionupdated", newAttributions)]),
               Returns ())
          | None => (map, Throws TypeError)    (* [querySelector] found nothing *)
          end
      | Throws e => (map, Throws e)
      | Outside => (map, Outside)
      end
  | _, _ => (map, Returns ())
  end.

Definition set_esriAttributions (map : Map) (l : list Attribution) : Map :=
  mkMap (getBounds map) (getZoom map) (getSize_x map) (attributionControl map)
        (Some l) (fired map).

Definition coverage_record (contributor : Contributor) (coverageArea : CoverageArea)
    : Attribution :=
  let '(b0, b1, b2, b3) := bbox coverageArea in
  let southWest := mkLatLng b0 b1 in
  let northEast := mkLatLng b2 b3 in
  mkAttribution (c_attribution contributor) (ca_score coverageArea)
                (latLngBounds southWest northEast)
                (zoomMin coverageArea) (zoomMax coverageArea).

(** The callback that [_getAttributionData] hands to [jsonp]. *)
Definition attributions_callback (map : Map) (error : option LookupError)
    (attributions : option AttributionData) : Map * completion unit :=
  match error with
  | Some _ => (map, Returns ())
  | None =>
      let map := set_esriAttributions map [] in
      match attributions with
      | None => (map, Throws TypeError)
      | Some attributions =>
          let pushed :=
            flat_map (fun contributor =>
                        List.map (coverage_record contributor) (coverageAreas contributor))
                     (contributors attributions) in
          let map := set_esriAttributions map (sort_by_score pushed) in
          _updateMapAttribution map
      end
  end.

(** [_getAttributionData(url, map)], seen when the lookup completes: the
    callback runs on the map as it is then. *)
Definition _getAttributionData (url : string) (map : Map) : Map * completion unit :=
  let '(error, attributions) := jsonp url in
  attributions_callback map error attributions.

End Attributions.


(** ** Notions used to state the properties *)

(** [x] is the element of [l] at index [j], and the first one that passes
    [test]. *)
Definition first_match {A} (test : A -> bool) (l : list A) (j : nat) (x : A) : Prop :=
  l !! j = Some x /\ test x = true /\
  forall i y, (i < j)%nat -> l !! i = Some y -> test y = false.

(** The table of geometry types, as a finite map. *)
Definition geometry_types : gmap string string :=
  list_to_map
    [("Point", "esriGeometryPoint");
     ("MultiPoint", "esriGeometryMultipoint");
     ("LineString", "esriGeometryPolyline");
     ("MultiLineString", "esriGeometryPolyline");
     ("Polygon", "esriGeometryPolygon");
     ("MultiPolygon", "esriGeometryPolygon")].

Fixpoint all_white_space (s : string) : bool :=
  match s with
  | EmptyString => true
  | String c s' => is_white_space c && all_white_space s'
  end.

(** The string does not begin with white space. *)
Definition starts_clean (s : string) : Prop :=
  match s with
  | EmptyString => True
  | String c _ => is_white_space c = false
  end.

(** The string does not end with white space. *)
Definition ends_clean (s : string) : Prop :=
  match last_char s with
  | None => True
  | Some c => is_white_space c = false
  end.

(** The number of path separators that [s] ends with. *)
Fixpoint trailing_separators (s : string) : nat :=
  match s with
  | EmptyString => 0
  | String c s' =>
      let n := trailing_separators s' in
      if (n =? String.length s')%nat && Ascii.eqb c "/" then S n else n
  end.

(** The GeoJSON types that [_setGeometry] accepts. *)
Definition accepted_types : list string := ["Point"; "LineString"; "Polygon"; "MultiPolygon"].

(** [g] is an object with a string under [type], and neither a [getLatLng]
    nor a [toGeoJSON] property: a GeoJSON object as parsed from JSON. *)
Definition geojson_object (g : value) (t : string) : Prop :=
  exists props,
    g = VObject ClsObject props /\
    assoc "getLatLng" props = None /\
    assoc "toGeoJSON" props = None /\
    assoc "type" props = Some (VString t).

(** [g] is an object with the string [t] under [type]. *)
Definition typed_object (g : value) (t : string) : Prop :=
  exists cls props, g = VObject cls props /\ assoc "type" props = Some (VString t).

(** [g] is not an instance of [L.LatLngBounds]. *)
Definition not_LatLngBounds (g : value) : Prop :=
  forall b props, g <> VObject (ClsLatLngBounds b) props.

(** The conversions of [_setGeometry] between its first and its last [if]
    statement (lines 231-261): the call of [getLatLng], the Point made of a
    [LatLng], the geometry of the first layer of an [L.GeoJSON], the call of
    [toGeoJSON], the geometry of a Feature.  The value is the one that the
    last [if] statement tests. *)
Definition cascade (g2a : value -> option string -> value) (geometry : value)
    : completion value :=
  geometry ← step_getLatLng geometry;
  '(geometry, _) ← step_GeoJSON g2a (step_LatLng geometry) (mkParams None None);
  geometry ← step_toGeoJSON geometry;
  step_Feature geometry.

(** The string under [type] of an object, if there is one. *)
Definition type_of (v : value) : option string :=
  match v with
  | VObject _ props =>
      match assoc "type" props with
      | Some (VString t) => Some t
      | _ => None
      end
  | _ => None
  end.

(** The Point that [_setGeometry] makes of a [LatLng]. *)
Definition point_of (p : LatLng) : value :=
  VObject ClsObject
    [("type", VString "Point");
     ("coordinates", VArray [VNumber (lng p); VNumber (lat p)])].

(** What [_setGeometry] answers once the cascade has reached the GeoJSON
    geometry [g] of type [t]: the pair when [t] is accepted, the warning and
    [undefined] otherwise. *)
Definition answer (g2a : value -> option string -> value) (g : value) (t : string)
    (console : Console) : completion (option Params * Console) :=
  if bool_decide (t ∈ accepted_types) then
    Returns (Some (mkParams (Some (GArcGIS (g2a g None))) (geojsonTypeToArcGIS (VString t))),
             console)
  else
    Returns (None, warn invalid_geometry_warning console).

(** How a call of [_setGeometry] on [console] may end: with a pair and no
    warning, with [undefined] after the warning, or with a [TypeError]. *)
Definition setGeometry_outcome (console : Console)
    (r : completion (option Params * Console)) : Prop :=
  match r with
  | Returns (Some params, console') =>
      console' = console /\ is_Some (p_geometry params) /\
      p_geometryType params ∈
        [Some "esriGeometryEnvelope"; Some "esriGeometryPoint";
         Some "esriGeometryPolyline"; Some "esriGeometryPolygon"]
  | Returns (None, console') => console' = warn invalid_geometry_warning console
  | Throws e => e = TypeError
  | Outside => False
  end.

(** A call that cannot end otherwise than by returning or by a [TypeError]. *)
Definition only_TypeError {A} (r : completion A) : Prop :=
  match r with
  | Returns _ => True
  | Throws e => e = TypeError
  | Outside => False
  end.

(** The pattern is made of ordinary characters only. *)
Definition plain_text (s : list ascii) : bool :=
  forallb (fun c => negb (RegExp.is_syntax_character c)) s.

(** The regular expression that matches exactly the string [s]. *)
Definition literal (s : list ascii) : RegExp.regex :=
  foldr (fun c r => RegExp.Seq (RegExp.Chr c) r) RegExp.Eps s.

(** What [.esri-dynamic-attribution] shows. *)
Definition shown (map : Map) : option string :=
  innerHTML <$> (attributionControl map ≫= esri_dynamic_attribution).

(** ** Sample data for the closed statements *)

Definition sample_g2a (geojson : value) (idAttr : option string) : value :=
  VObject ClsObject [("converted", geojson)].

Definition sample_fields : list Field :=
  [mkField "NAME" "esriFieldTypeString"; mkField "FID" "esriFieldTypeInteger";
   mkField "OBJECTID" "esriFieldTypeOID"].

Definition sample_polygon : value :=
  VObject ClsObject
    [("type", VString "Polygon");
     ("coordinates",
      VArray [VArray [VArray [VNumber (Qc_of_Z 0); VNumber (Qc_of_Z 0)];
                      VArray [VNumber (Qc_of_Z 1); VNumber (Qc_of_Z 0)];
                      VArray [VNumber (Qc_of_Z 1); VNumber (Qc_of_Z 1)];
                      VArray [VNumber (Qc_of_Z 0); VNumber (Qc_of_Z 0)]]])].

Definition sample_multipoint : value :=
  VObject ClsObject
    [("type", VString "MultiPoint");
     ("coordinates", VArray [VArray [VNumber (Qc_of_Z 1); VNumber (Qc_of_Z 2)]])].

Definition sample_feature_of (g : value) : value :=
  VObject ClsObject [("type", VString "Feature"); ("properties", VNull); ("geometry", g)].

Definition sample_world : LatLngBounds :=
  latLngBounds (mkLatLng (Qc_of_Z (-90)) (Qc_of_Z (-180)))
               (mkLatLng (Qc_of_Z 90) (Qc_of_Z 180)).

Definition sample_view : LatLngBounds :=
  latLngBounds (mkLatLng (Qc_of_Z 10) (Qc_of_Z 100))
               (mkLatLng (Qc_of_Z 30) (Qc_of_Z 120)).

(** A map at zoom 5 with two attribution records of the same text, both
    covering the world at the zooms 0 to 20. *)
Definition sample_map (text : string) : Map :=
  mkMap sample_view (Qc_of_Z 5) (Qc_of_Z 800)
        (Some (mkControl (Some (mkElement "" None))))
        (Some [mkAttribution text (Qc_of_Z 50) sample_world (Qc_of_Z 0) (Qc_of_Z 20);
               mkAttribution text (Qc_of_Z 10) sample_world (Qc_of_Z 0) (Qc_of_Z 20)])
        [].

Definition sample_a2g (arcgis : Feature) (idAttr : option string) : value :=
  VObject ClsObject
    [("type", VString "Feature");
     ("id", match idAttr with
            | Some key => default VNull (attributes arcgis ≫= assoc key)
            | None => VUndefined
            end);
     ("geometry", geometry arcgis)].

Definition sample_feature (key : string) (id : Z) : Feature :=
  mkFeature (Some [("NAME", VString "a"); (key, VNumber (Qc_of_Z id))]) VNull.

Definition sample_features : list Feature :=
  [sample_feature "FID" 1; sample_feature "OBJECTID" 2; sample_feature "fid" 3].

(** ** Further sample data *)

Definition sample_fields_unnamed_OID : list Field :=
  [mkField "" "esriFieldTypeOID"; mkField "NAME" "esriFieldTypeString";
   mkField "fid" "esriFieldTypeInteger"].

(** ** Substrings *)

Fixpoint is_prefix_of (t s : list ascii) : bool :=
  match t, s with
  | [], _ => true
  | _ :: _, [] => false
  | c :: t', d :: s' => Ascii.eqb d c && is_prefix_of t' s'
  end.

Fixpoint is_infix_of (t s : list ascii) : bool :=
  is_prefix_of t s ||
  match s with
  | [] => false
  | _ :: s' => is_infix_of t s'
  end.

(** [t] occurs in [s]. *)
Definition contains (s t : string) : bool :=
  is_infix_of (list_ascii_of_string t) (list_ascii_of_string s).

(** The record passes the tests on bounds and zoom of [_updateMapAttribution]. *)
Definition visible (wrappedBounds : LatLngBounds) (zoom : Qc) (entry : Attribution) : bool :=
  intersects (bounds entry) wrappedBounds
  && bool_decide (minZoom entry ≤ zoom)%Qc
  && bool_decide (zoom ≤ maxZoom entry)%Qc.

(** One round of the loop of [_updateMapAttribution], with a substring test
    in the place of [match]. *)
Definition add_visible (wrappedBounds : LatLngBounds) (zoom : Qc)
    (newAttributions : string) (entry : Attribution) : string :=
  if negb (contains newAttributions (attribution entry)) && visible wrappedBounds zoom entry
  then newAttributions +:+ (", " +:+ attribution entry)
  else newAttributions.

(** The text of the record has no syntax character. *)
Definition plain_record (entry : Attribution) : Prop :=
  plain_text (list_ascii_of_string (attribution entry)) = true.

(** The records that a response of the lookup describes, in the order of
    the response. *)
Definition records_of (attributions : AttributionData) : list Attribution :=
  flat_map (fun contributor =>
              List.map (coverage_record contributor) (coverageAreas contributor))
           (contributors attributions).

(** [a] is not behind [b] in a list ordered by descending score. *)
Definition score_order (a b : Attribution) : Prop := (score b ≤ score a)%Qc.

Definition sample_attributions : AttributionData :=
  mkAttributionData
    [mkContributor "Esri"
       [mkCoverageArea (Qc_of_Z (-90), Qc_of_Z (-180), Qc_of_Z 90, Qc_of_Z 180)
                       (Qc_of_Z 10) (Qc_of_Z 0) (Qc_of_Z 20);
        mkCoverageArea (Qc_of_Z 0, Qc_of_Z 90, Qc_of_Z 40, Qc_of_Z 130)
                       (Qc_of_Z 70) (Qc_of_Z 3) (Qc_of_Z 9)];
     mkContributor "Esri Japan"
       [mkCoverageArea (Qc_of_Z 20, Qc_of_Z 120, Qc_of_Z 50, Qc_of_Z 150)
                       (Qc_of_Z 100) (Qc_of_Z 4) (Qc_of_Z 12)]].

(** A map at zoom 5 whose attribution records are [l]. *)
Definition sample_map_with (l : list Attribution) : Map :=
  mkMap sample_view (Qc_of_Z 5) (Qc_of_Z 800)
        (Some (mkControl (Some (mkElement "" None)))) (Some l) [].

(** ** Service classification ([Util.js], lines 122-126)

    [isArcgisOnline] tests the url against
    [/^(?!.*utility\.arcgis\.com).*\.arcgis\.com.*FeatureServer/i].
    The pattern is anchored at the start and has no [g] flag, so [test]
    succeeds exactly when, at index 0, the body of the negative lookahead has
    no match and the rest of the pattern has one.  The two parts are
    patterns of [Module RegExp]; the flag [i] compares canonicalized
    characters (all the characters of the two patterns are ASCII). *)

(** The pattern with every character canonicalized. *)
Fixpoint fold_case (r : RegExp.regex) : RegExp.regex :=
  match r with
  | RegExp.Chr c => RegExp.Chr (canonicalize c)
  | RegExp.Seq r1 r2 => RegExp.Seq (fold_case r1) (fold_case r2)
  | RegExp.Alt r1 r2 => RegExp.Alt (fold_case r1) (fold_case r2)
  | RegExp.Star r1 => RegExp.Star (fold_case r1)
  | other => other
  end.

(** What the source text of a pattern is compiled to. *)
Definition pattern_of (source : string) : RegExp.regex :=
  match RegExp.compile source with
  | Returns r => r
  | _ => RegExp.Void
  end.

(** A match of [source], under the flag [i], that begins at index 0 of [s]. *)
Definition matches_at_start_i (source : string) (s : string) : bool :=
  RegExp.match_here (fold_case (pattern_of source))
                    (List.map canonicalize (list_ascii_of_string s)).

Definition isArcgisOnline (url : string) : bool :=
  negb (matches_at_start_i ".*utility\.arcgis\.com" url)
  && matches_at_start_i ".*\.arcgis\.com.*FeatureServer" url.

(** ** The language of a pattern *)

Inductive matches : RegExp.regex -> list ascii -> Prop :=
  | matches_Eps : matches RegExp.Eps []
  | matches_Chr c : matches (RegExp.Chr c) [c]
  | matches_Dot c : RegExp.is_line_terminator c = false -> matches RegExp.Dot [c]
  | matches_Seq r1 r2 s1 s2 :
      matches r1 s1 -> matches r2 s2 -> matches (RegExp.Seq r1 r2) (s1 ++ s2)
  | matches_Alt_l r1 r2 s : matches r1 s -> matches (RegExp.Alt r1 r2) s
  | matches_Alt_r r1 r2 s : matches r2 s -> matches (RegExp.Alt r1 r2) s
  | matches_Star_nil r : matches (RegExp.Star r) []
  | matches_Star_app r s1 s2 :
      matches r s1 -> matches (RegExp.Star r) s2 -> matches (RegExp.Star r) (s1 ++ s2).

(** The pattern that matches [t] and then [r]. *)
Definition literal_then (t : list ascii) (r : RegExp.regex) : RegExp.regex :=
  foldr (fun c r => RegExp.Seq (RegExp.Chr c) r) r t.

(** No character of [s] ends a line. *)
Definition one_line (s : list ascii) : Prop :=
  Forall (fun c => RegExp.is_line_terminator c = false) s.

(** The url as [isArcgisOnline] compares it. *)
Definition folded (url : string) : list ascii :=
  List.map canonicalize (list_ascii_of_string url).

(** [s] has [t] on its first line, at some place. *)
Definition has_on_first_line (s : list ascii) (t : string) : Prop :=
  exists before rest, s = before ++ list_ascii_of_string t ++ rest /\ one_line before.

(** ** The attribution prefix, style sheets and listeners
    ([Util.js], lines 165-215)

    The part of the page that [setEsriAttribution] and its two listeners
    read and write.  A node has an identity ([node_id]), given by
    [document.createElement]; the collection that
    [document.getElementsByClassName] returns is live, so it is computed
    from the document every time it is read. *)

(** A piece of the text of a style sheet: a literal, or a length printed
    by [calcAttributionWidth]. *)
Inductive piece : Type :=
  | Text (s : string)
  | Width (w : CssLength).

Record Node : Type := mkNode {
  node_id : nat;
  tagName : string;
  node_type : string;               (* the property [type] *)
  node_innerHTML : list piece;
  className : list string
}.

(** The document: the children of [head], the other elements in tree order,
    the identity of the next node, and whether elements have the method
    [remove]. *)
Record Document : Type := mkDocument {
  doc_head : list Node;
  doc_body : list Node;
  next_id : nat;
  element_remove : bool
}.

Definition createElement (tag : string) (doc : Document) : Node * Document :=
  (mkNode (next_id doc) tag "" [] [],
   mkDocument (doc_head doc) (doc_body doc) (S (next_id doc)) (element_remove doc)).

(** [document.getElementsByTagName('head')[0].appendChild(node)] *)
Definition head_appendChild (node : Node) (doc : Document) : Document :=
  mkDocument (doc_head doc ++ [node]) (doc_body doc) (next_id doc) (element_remove doc).

Definition has_class (name : string) (node : Node) : bool :=
  bool_decide (name ∈ className node).

Definition all_nodes (doc : Document) : list Node := doc_head doc ++ doc_body doc.

Definition getElementsByClassName (name : string) (doc : Document) : list Node :=
  List.filter (has_class name) (all_nodes doc).

Definition is_not (id : nat) (node : Node) : bool := negb (node_id node =? id)%nat.

(** [node.remove()], for the node of identity [id]. *)
Definition node_remove (id : nat) (doc : Document) : Document :=
  mkDocument (List.filter (is_not id) (doc_head doc)) (List.filter (is_not id) (doc_body doc))
             (next_id doc) (element_remove doc).

(** What [setEsriAttribution] reads and writes of [map.attributionControl]
    and of its container. *)
Record ControlState : Type := mkControlState {
  control_prefix : string;
  container_classes : list string;
  container_maxWidth : option CssLength;
  _esriAttributionAdded : bool
}.

(** Leaflet's [DomUtil.addClass] for a name without blanks. *)
Definition addClass (name : string) (c : ControlState) : ControlState :=
  mkControlState (control_prefix c)
    (if bool_decide (name ∈ container_classes c) then container_classes c
     else container_classes c ++ [name])
    (container_maxWidth c) (_esriAttributionAdded c).

Definition setPrefix (p : string) (c : ControlState) : ControlState :=
  mkControlState p (container_classes c) (container_maxWidth c) (_esriAttributionAdded c).

(** The two functions that [setEsriAttribution] hands to [map.on]; the one
    for [unload] keeps the two style elements it has created. *)
Inductive Handler : Type :=
  | OnResize
  | OnUnload (hoverAttributionStyle attributionStyle : nat).

Record Page : Type := mkPage {
  page_map : Map;
  control : ControlState;           (* of [map.attributionControl], when the map has one *)
  listeners : list (string * Handler);
  document : Document
}.

Definition quote : string := String (ascii_of_nat 34) EmptyString.

Definition esri_prefix : string :=
  "<a href=" +:+ quote +:+ "http://leafletjs.com" +:+ quote +:+ " title=" +:+ quote
  +:+ "A JS library for interactive maps" +:+ quote
  +:+ ">Leaflet</a> | Powered by <a href=" +:+ quote +:+ "https://www.esri.com" +:+ quote
  +:+ ">Esri</a>".

Fixpoint odd_positions {A} (l : list A) : list A :=
  match l with
  | _ :: b :: rest => b :: odd_positions rest
  | _ => []
  end.

Section Styles.

Variable attributionWidthOffset : Qc.

Definition setEsriAttribution (page : Page) : Page :=
  let map := page_map page in
  match attributionControl map with
  | Some _ =>
      if negb (_esriAttributionAdded (control page)) then
        let control := setPrefix esri_prefix (control page) in
        let '(hoverAttributionStyle, doc) := createElement "style" (document page) in
        let hoverAttributionStyle :=
          mkNode (node_id hoverAttributionStyle) (tagName hoverAttributionStyle) "text/css"
            [Text (".esri-truncated-attribution:hover {" +:+ "white-space: normal;" +:+ "}")]
            (className hoverAttributionStyle) in
        let doc := head_appendChild hoverAttributionStyle doc in
        let control := addClass "esri-truncated-attribution:hover" control in
        (* define a new css class in JS to trim attribution into a single line *)
        let '(attributionStyle, doc) := createElement "style" doc in
        let attributionStyle :=
          mkNode (node_id attributionStyle) (tagName attributionStyle) "text/css"
            [Text (".esri-truncated-attribution {" +:+ "vertical-align: -3px;"
                   +:+ "white-space: nowrap;" +:+ "overflow: hidden;"
                   +:+ "text-overflow: ellipsis;" +:+ "display: inline-block;"
                   +:+ "transition: 0s white-space;" +:+ "transition-delay: 1s;"
                   +:+ "max-width: ");
             Width (calcAttributionWidth attributionWidthOffset map);
             Text (";" +:+ "}")]
            (className attributionStyle) in
        let doc := head_appendChild attributionStyle doc in
        let control := addClass "esri-truncated-attribution" control in
        (* update the width used to truncate when the map itself is resized *)
        let listeners := listeners page ++ [("resize", OnResize)] in
        (* remove injected scripts and style tags *)
        let listeners :=
          listeners ++ [("unload", OnUnload (node_id hoverAttributionStyle)
                                            (node_id attributionStyle))] in
        let control :=
          mkControlState (control_prefix control) (container_classes control)
                         (container_maxWidth control) true in
        mkPage map control listeners doc
      else page
  | None => page
  end.

(** The listener of [resize]: [e.target] is the map that fires the event. *)
Definition on_resize (target : Map) (page : Page) : Page :=
  mkPage (page_map page)
         (mkControlState (control_prefix (control page)) (container_classes (control page))
                         (Some (calcAttributionWidth attributionWidthOffset target))
                         (_esriAttributionAdded (control page)))
         (listeners page) (document page).

(** [if (style && style.remove) { style.remove(); }] *)
Definition remove_if_supported (id : nat) (doc : Document) : Document :=
  if element_remove doc then node_remove id doc else doc.

(** The loop [for (var i = 0; i < nodeList.length; i++) { nodeList.item(i).remove(); }]
    over the live [nodeList], from index [i] on, in at most [fuel] rounds. *)
Fixpoint remove_scripts (fuel : nat) (i : nat) (doc : Document) : Document * completion unit :=
  match fuel with
  | O => (doc, Outside)
  | S fuel =>
      let nodeList := getElementsByClassName "esri-leaflet-jsonp-script" doc in
      if (i <? length nodeList)%nat then
        match nodeList !! i with
        | Some node =>
            if element_remove doc then remove_scripts fuel (S i) (node_remove (node_id node) doc)
            else (doc, Throws TypeError)
        | None => (doc, Throws TypeError)
        end
      else (doc, Returns ())
  end.

(** The listener of [unload]. *)
Definition on_unload (hoverAttributionStyle attributionStyle : nat) (doc : Document)
    : Document * completion unit :=
  let doc := remove_if_supported hoverAttributionStyle doc in
  let doc := remove_if_supported attributionStyle doc in
  let nodeList := getElementsByClassName "esri-leaflet-jsonp-script" doc in
  remove_scripts (S (length nodeList)) 0 doc.

Definition handle (h : Handler) (page : Page) : Page * completion unit :=
  match h with
  | OnResize => (on_resize (page_map page) page, Returns ())
  | OnUnload hoverAttributionStyle attributionStyle =>
      let '(doc, r) := on_unload hoverAttributionStyle attributionStyle (document page) in
      (mkPage (page_map page) (control page) (listeners page) doc, r)
  end.

(** [map.fire(type)]: the listeners of [type] run in the order of their
    registration; one that throws ends the call. *)
Fixpoint run_listeners (type : string) (ls : list (string * Handler)) (page : Page)
    : Page * completion unit :=
  match ls with
  | [] => (page, Returns ())
  | (t, h) :: rest =>
      if String.eqb t type then
        match handle h page with
        | (page', Returns _) => run_listeners type rest page'
        | other => other
        end
      else run_listeners type rest page
  end.

Definition fire (type : string) (page : Page) : Page * completion unit :=
  run_listeners type (listeners page) page.

End Styles.

(** The identities of the nodes of the document are distinct and were all
    given before [next_id]. *)
Definition well_formed (doc : Document) : Prop :=
  NoDup (node_id <$> all_nodes doc) /\
  Forall (fun node => (node_id node < next_id doc)%nat) (all_nodes doc).

(** The scripts that the lookups have left in the document. *)
Definition jsonp_scripts (doc : Document) : list Node :=
  getElementsByClassName "esri-leaflet-jsonp-script" doc.

(** The other nodes of the document. *)
Definition other_nodes (doc : Document) : list Node :=
  List.filter (fun node => negb (has_class "esri-leaflet-jsonp-script" node)) (all_nodes doc).

Definition sample_script (id : nat) : Node :=
  mkNode id "script" "text/javascript" [] ["esri-leaflet-jsonp-script"].

Definition sample_document : Document :=
  mkDocument [mkNode 0 "title" "" [Text "map"] []]
             [mkNode 1 "div" "" [] ["leaflet-container"];
              sample_script 2; sample_script 3; sample_script 4; sample_script 5;
              sample_script 6]
             7 true.

Definition sample_page : Page :=
  mkPage (sample_map "Esri") (mkControlState "Leaflet" ["leaflet-control-attribution"] None false)
         [] sample_document.

(** * Properties *)

(** ** Bounding boxes *)

Lemma Math_min_ordered (a b : Qc) : (a ≤ b)%Qc -> Math_min b a = a.
Proof.
  intros Hab. unfold Math_min. destruct (decide (b ≤ a)%Qc) as [Hba|Hba].
  - apply Qcle_antisym; assumption.
  - reflexivity.
Qed.

Lemma Math_max_ordered (a b : Qc) : (a ≤ b)%Qc -> Math_max b a = b.
Proof.
  intros Hab. unfold Math_max. destruct (decide (b ≤ a)%Qc) as [Hba|Hba].
  - apply Qcle_antisym; assumption.
  - reflexivity.
Qed.

Lemma Math_min_le_max (a b : Qc) : (Math_min a b ≤ Math_max a b)%Qc.
Proof.
  unfold Math_min, Math_max. destruct (decide (a ≤ b)%Qc) as [H|H].
  - exact H.
  - apply Qclt_le_weak, Qclt_nge, H.
Qed.

(** The constructor puts the corners in order. *)
Lemma latLngBounds_ordered (corner1 corner2 : LatLng) :
  ordered (latLngBounds corner1 corner2).
Proof. split; apply Math_min_le_max. Qed.

(** Rebuilding a bounds object from its own corners gives it back. *)
Lemma latLngBounds_corners (b : LatLngBounds) :
  ordered b -> latLngBounds (getSouthWest b) (getNorthEast b) = b.
Proof.
  destruct b as [[y0 x0] [y1 x1]]. intros [Hy Hx]. simpl in Hy, Hx.
  unfold latLngBounds, extend, getSouthWest, getNorthEast. simpl.
  rewrite !Math_min_ordered, !Math_max_ordered by assumption. reflexivity.
Qed.

Lemma extentToBounds_boundsToExtent_ordered (b : LatLngBounds) :
  ordered b -> extentToBounds (boundsToExtent (Instance b)) = Returns (Some b).
Proof.
  intros Hb. unfold extentToBounds, boundsToExtent. simpl.
  change (mkLatLng (lat (getSouthWest b)) (lng (getSouthWest b)))
    with (let p := getSouthWest b in mkLatLng (lat p) (lng p)).
  change (mkLatLng (lat (getNorthEast b)) (lng (getNorthEast b)))
    with (let p := getNorthEast b in mkLatLng (lat p) (lng p)).
  simpl. destruct (getSouthWest b) as [y0 x0] eqn:Hsw, (getNorthEast b) as [y1 x1] eqn:Hne.
  simpl. rewrite <- Hsw, <- Hne, latLngBounds_corners by assumption. reflexivity.
Qed.

Lemma not_NaN_string_false (x : coord) : not_NaN_string x = false <-> x = NaNString.
Proof.
  destruct x as [n| |s]; simpl; [split; discriminate..|].
  rewrite negb_false_iff. unfold NaNString.
  destruct (String.eqb_spec s "NaN") as [->|Hs]; split; congruence.
Qed.

(** The guard of [extentToBounds] fails exactly on a ['NaN'] field. *)
Lemma extentToBounds_guard (e : Extent) :
  not_NaN_string (xmin e) && not_NaN_string (ymin e)
  && not_NaN_string (xmax e) && not_NaN_string (ymax e) = false <-> some_NaN e.
Proof.
  unfold some_NaN. rewrite !andb_false_iff, !not_NaN_string_false. tauto.
Qed.

(** The two branches of [extentToBounds]. *)
Lemma extentToBounds_cases (e : Extent) :
  (some_NaN e /\ extentToBounds e = Returns None) \/
  (~ some_NaN e /\
   extentToBounds e =
   (sw ← latLng (ymin e) (xmin e);
    ne ← latLng (ymax e) (xmax e);
    Returns (Some (latLngBounds sw ne)))).
Proof.
  pose proof (extentToBounds_guard e) as Hguard. unfold extentToBounds.
  destruct (not_NaN_string (xmin e) && not_NaN_string (ymin e)
            && not_NaN_string (xmax e) && not_NaN_string (ymax e)).
  - right. split; [|reflexivity]. intros H. apply Hguard in H. discriminate.
  - left. split; [|reflexivity]. apply Hguard. reflexivity.
Qed.

Lemma latLng_cases (a b : coord) :
  (isNaN a || isNaN b = true /\ latLng a b = Throws InvalidLatLng) \/
  (isNaN a || isNaN b = false /\
   ((exists y x, a = Num y /\ b = Num x /\ latLng a b = Returns (mkLatLng y x)) \/
    ((numeric_string a = true \/ numeric_string b = true) /\ latLng a b = Outside))).
Proof.
  unfold latLng. destruct (isNaN a || isNaN b) eqn:Hnan; [left; split; reflexivity|].
  right. split; [reflexivity|]. apply orb_false_elim in Hnan as [Ha Hb].
  destruct a as [y| |s]; [|discriminate|].
  - destruct b as [x| |t]; [left; eauto|discriminate|].
    right. split; [|reflexivity]. right. simpl in *. destruct (is_numeric_string t); auto.
  - right. split; [|reflexivity]. left. simpl in *. destruct (is_numeric_string s); auto.
Qed.

Lemma numeric_string_not_NaN (x : coord) : numeric_string x = true -> isNaN x = false.
Proof. destruct x; simpl; [discriminate..|]. intros ->. reflexivity. Qed.

(** C1, as the code has it: [extentToBounds] returns null exactly when at
    least one of the four fields is the string ['NaN'] (not only when all
    four are), so it does not throw on the all-['NaN'] extent; on an extent
    of four finite numbers it returns
    [latLngBounds(latLng(ymin, xmin), latLng(ymax, xmax))], whose corners
    are the componentwise minimum and maximum, hence (ymin, xmin) and
    (ymax, xmax) when the extent is in order.  Other extents do not all give
    a bounds object: the only error thrown is that of Leaflet's [LatLng],
    it needs a field that [isNaN] accepts and no field ['NaN'], and it is
    thrown on every such extent whose other fields are numbers. *)
Theorem extentToBounds_null_iff_some_NaN (e : Extent) :
  (extentToBounds e = Returns None <-> some_NaN e) /\
  (forall x0 y0 x1 y1,
      xmin e = Num x0 -> ymin e = Num y0 -> xmax e = Num x1 -> ymax e = Num y1 ->
      exists b,
        extentToBounds e = Returns (Some b) /\
        getSouthWest b = mkLatLng (Math_min y1 y0) (Math_min x1 x0) /\
        getNorthEast b = mkLatLng (Math_max y1 y0) (Math_max x1 x0) /\
        ((y0 ≤ y1)%Qc -> (x0 ≤ x1)%Qc ->
         getSouthWest b = mkLatLng y0 x0 /\ getNorthEast b = mkLatLng y1 x1)) /\
  (forall err, extentToBounds e = Throws err ->
               err = InvalidLatLng /\ ~ some_NaN e /\ some_isNaN e) /\
  (~ some_NaN e -> some_isNaN e -> no_numeric_string e ->
   extentToBounds e = Throws InvalidLatLng).
Proof.
  destruct (extentToBounds_cases e) as [[Hsome Hnull]|[Hno Hpass]].
  - rewrite Hnull. split; [tauto|]. split; [|split; [discriminate|tauto]].
    intros x0 y0 x1 y1 Hx0 Hy0 Hx1 Hy1. exfalso. unfold some_NaN in Hsome.
    rewrite Hx0, Hy0, Hx1, Hy1 in Hsome. destruct Hsome as [H|[H|[H|H]]]; discriminate.
  - rewrite Hpass. unfold some_isNaN, no_numeric_string.
    destruct (latLng_cases (ymin e) (xmin e))
      as [[Hn1 ->]|[Hn1 [(y0 & x0 & Hy0 & Hx0 & ->)|[Hs1 ->]]]]; cbn [mbind completion_bind].
    + apply orb_true_iff in Hn1. split; [split; [discriminate|tauto]|].
      split; [|split; [intros err [= <-]; tauto|reflexivity]].
      intros x0 y0 x1 y1 Hx Hy. rewrite Hx, Hy in Hn1. simpl in Hn1. destruct Hn1; discriminate.
    + destruct (latLng_cases (ymax e) (xmax e))
        as [[Hn2 ->]|[Hn2 [(y1 & x1 & Hy1 & Hx1 & ->)|[Hs2 ->]]]]; cbn [mbind completion_bind].
      * apply orb_true_iff in Hn2. split; [split; [discriminate|tauto]|].
        split; [|split; [intros err [= <-]; tauto|reflexivity]].
        intros x0' y0' x1' y1' _ _ Hx Hy. rewrite Hx, Hy in Hn2. simpl in Hn2.
        destruct Hn2; discriminate.
      * split; [split; [discriminate|tauto]|]. split; [|split; [discriminate|]].
        -- intros x0' y0' x1' y1' Hx0' Hy0' Hx1' Hy1'.
           rewrite Hx0 in Hx0'. rewrite Hy0 in Hy0'. rewrite Hx1 in Hx1'. rewrite Hy1 in Hy1'.
           injection Hx0' as <-. injection Hy0' as <-. injection Hx1' as <-. injection Hy1' as <-.
           eexists. split; [reflexivity|]. split; [reflexivity|]. split; [reflexivity|].
           intros Hy Hx. unfold getSouthWest, getNorthEast. simpl.
           rewrite !Math_min_ordered, !Math_max_ordered by assumption. split; reflexivity.
        -- intros _ Hsome _. rewrite Hx0, Hy0, Hx1, Hy1 in Hsome. simpl in Hsome.
           destruct Hsome as [H|[H|[H|H]]]; discriminate.
      * split; [split; [discriminate|tauto]|]. split; [|split; [discriminate|]].
        -- intros x0' y0' x1' y1' _ _ Hx Hy. rewrite Hx, Hy in Hs2. simpl in Hs2.
           destruct Hs2; discriminate.
        -- intros _ _ (_ & _ & Hf1 & Hf2). destruct Hs2 as [H|H]; congruence.
    + split; [split; [discriminate|tauto]|]. split; [|split; [discriminate|]].
      * intros x0 y0 x1 y1 Hx Hy. rewrite Hx, Hy in Hs1. simpl in Hs1.
        destruct Hs1; discriminate.
      * intros _ _ (Hf1 & Hf2 & _). destruct Hs1 as [H|H]; congruence.
Qed.

(** C1 as stated fails: an extent with one ['NaN'] field and three numbers
    is not the all-['NaN'] extent, and still it is converted to null. *)
Lemma extentToBounds_one_NaN_is_null :
  let e := mkExtent NaNString (Num (Qc_of_Z 10)) (Num (Qc_of_Z 30)) (Num (Qc_of_Z 20)) None in
  ymin e = Num (Qc_of_Z 10) /\ xmax e = Num (Qc_of_Z 30) /\ ymax e = Num (Qc_of_Z 20) /\
  extentToBounds e = Returns None.
Proof. repeat split. Qed.

(** "Every other extent" fails on this side too: the number [NaN] and the
    string ['nan'] pass the guard, and Leaflet's constructor throws. *)
Lemma extentToBounds_NaN_number_throws :
  extentToBounds (mkExtent NaN (Num (Qc_of_Z 10)) (Num (Qc_of_Z 30)) (Num (Qc_of_Z 20)) None)
  = Throws InvalidLatLng /\
  extentToBounds (mkExtent (Num (Qc_of_Z 5)) (Num (Qc_of_Z 10)) (Num (Qc_of_Z 30))
                           (Str "nan") None)
  = Throws InvalidLatLng.
Proof. split; reflexivity. Qed.

(** The corners are put in order: an extent given with [xmin] above [xmax]
    comes out with the two longitudes exchanged. *)
Lemma extentToBounds_inverted_extent :
  let e := mkExtent (Num (Qc_of_Z 30)) (Num (Qc_of_Z 10)) (Num (Qc_of_Z 20))
                    (Num (Qc_of_Z 40)) None in
  exists b, extentToBounds e = Returns (Some b) /\
            getSouthWest b = mkLatLng (Qc_of_Z 10) (Qc_of_Z 20) /\
            getNorthEast b = mkLatLng (Qc_of_Z 40) (Qc_of_Z 30).
Proof. eexists. repeat split. Qed.

(** C2: for every bounds object [B] that Leaflet builds from a pair of
    corners, [extentToBounds(boundsToExtent(B))] is a bounds object equal to
    [B], corner by corner. *)
Theorem extentToBounds_boundsToExtent (corner1 corner2 : LatLng) :
  let B := latLngBounds corner1 corner2 in
  exists b,
    extentToBounds (boundsToExtent (Instance B)) = Returns (Some b) /\
    getSouthWest b = getSouthWest B /\ getNorthEast b = getNorthEast B /\
    extentToBounds (boundsToExtent (Corners corner1 corner2)) = Returns (Some b).
Proof.
  intros B. exists B.
  assert (H : extentToBounds (boundsToExtent (Instance B)) = Returns (Some B))
    by apply extentToBounds_boundsToExtent_ordered, latLngBounds_ordered.
  repeat split; exact H.
Qed.

(** ** Identifier fields and feature collections *)

Lemma scan_fields_first (test : Field -> bool) (fs : list Field) (j : nat) (f : Field)
    (result : option string) :
  first_match test fs j f -> scan_fields test fs result = Some (name f).
Proof.
  revert j. induction fs as [|g fs IH]; intros j (Hj & Hf & Hlt).
  - rewrite lookup_nil in Hj. discriminate.
  - destruct j as [|j]; simpl in *.
    + injection Hj as ->. rewrite Hf. reflexivity.
    + rewrite (Hlt 0%nat g) by (lia || reflexivity).
      apply (IH j). split; [exact Hj|]. split; [exact Hf|].
      intros i y Hi Hy. apply (Hlt (S i) y); [lia | exact Hy].
Qed.

Lemma scan_fields_none (test : Field -> bool) (fs : list Field) (result : option string) :
  Forall (fun f => test f = false) fs -> scan_fields test fs result = result.
Proof.
  induction 1 as [|f fs Hf _ IH]; simpl; [reflexivity|]. rewrite Hf. exact IH.
Qed.

Lemma scan_keys_first (keys : list string) (j : nat) (key : string) :
  first_match match_knownFieldNames keys j key -> scan_keys keys = Some key.
Proof.
  revert j. induction keys as [|k keys IH]; intros j (Hj & Hk & Hlt).
  - rewrite lookup_nil in Hj. discriminate.
  - destruct j as [|j]; simpl in *.
    + injection Hj as ->. rewrite Hk. reflexivity.
    + rewrite (Hlt 0%nat k) by (lia || reflexivity).
      apply (IH j). split; [exact Hj|]. split; [exact Hk|].
      intros i y Hi Hy. apply (Hlt (S i) y); [lia | exact Hy].
Qed.

Lemma scan_keys_none (keys : list string) :
  Forall (fun k => match_knownFieldNames k = false) keys -> scan_keys keys = None.
Proof.
  induction 1 as [|k keys Hk _ IH]; simpl; [reflexivity|]. rewrite Hk. exact IH.
Qed.

Section FeatureCollectionProperties.

Variable a2g : Feature -> option string -> value.

(** The loop, [n] iterations before its end, appends the conversions of the
    first [n] features, last one first. *)
Lemma push_features_take (l : list Feature) (objectIdField : option string)
    (n : nat) (out : list value) :
  (n <= length l)%nat ->
  push_features a2g l objectIdField n out =
  Returns (out ++ ((fun f => a2g f (or_string objectIdField (_findIdAttributeFromFeature f)))
                     <$> reverse (take n l))).
Proof.
  revert out. induction n as [|i IH]; intros out Hn; simpl.
  - cbn. rewrite app_nil_r. reflexivity.
  - destruct (lookup_lt_is_Some_2 l i) as [f Hf]; [lia|].
    rewrite Hf, IH by lia. unfold arcgisToGeoJSON.
    rewrite (take_S_r l i f Hf), reverse_snoc, fmap_cons, <- app_assoc. reflexivity.
Qed.

Lemma responseToFeatureCollection_Some (response : Response)
    (idAttribute : option string) (l : list Feature) :
  features_or_results response = Some l ->
  responseToFeatureCollection a2g response idAttribute =
  Returns (mkFeatureCollection "FeatureCollection"
    ((fun f => a2g f (or_string
                        (if truthy_string idAttribute then idAttribute
                         else _findIdAttributeFromResponse response)
                        (_findIdAttributeFromFeature f)))
       <$> reverse l)).
Proof.
  intros Hl. unfold responseToFeatureCollection. rewrite Hl.
  destruct l as [|f l]; [reflexivity|].
  change (0 <? length (f :: l))%nat with true. cbv iota.
  rewrite push_features_take by reflexivity.
  rewrite firstn_all. reflexivity.
Qed.

(** C3: a response whose list (under [features], or under [results] when
    [features] is absent) has N elements gives a [FeatureCollection] of N
    features, and output element [i] is the conversion of input element
    [N - 1 - i]. *)
Theorem responseToFeatureCollection_reversed (response : Response)
    (idAttribute : option string) (l : list Feature) :
  features_or_results response = Some l ->
  let objectIdField :=
    if truthy_string idAttribute then idAttribute
    else _findIdAttributeFromResponse response in
  let convert f := a2g f (or_string objectIdField (_findIdAttributeFromFeature f)) in
  exists fc,
    responseToFeatureCollection a2g response idAttribute = Returns fc /\
    fc_type fc = "FeatureCollection" /\
    length (fc_features fc) = length l /\
    (forall i, (i < length l)%nat ->
               fc_features fc !! i = convert <$> l !! (length l - 1 - i)%nat).
Proof.
  intros Hl objectIdField convert.
  eexists. split; [apply responseToFeatureCollection_Some, Hl|]. simpl.
  split; [reflexivity|]. split.
  - rewrite length_fmap, length_reverse. reflexivity.
  - intros i Hi. rewrite list_lookup_fmap, reverse_lookup by exact Hi.
    replace (length l - S i)%nat with (length l - 1 - i)%nat by lia. reflexivity.
Qed.

(** C10: the call throws (a property read on [undefined]) exactly when the
    response has neither [features] nor [results]; it returns a collection
    exactly when one of them is there; and an empty list gives a collection
    with no feature. *)
Theorem responseToFeatureCollection_needs_list (response : Response)
    (idAttribute : option string) :
  (responseToFeatureCollection a2g response idAttribute = Throws TypeError <->
   features response = None /\ results response = None) /\
  ((exists fc, responseToFeatureCollection a2g response idAttribute = Returns fc) <->
   exists l, features_or_results response = Some l) /\
  (features_or_results response = Some [] ->
   responseToFeatureCollection a2g response idAttribute =
   Returns (mkFeatureCollection "FeatureCollection" [])).
Proof.
  destruct (features_or_results response) as [l|] eqn:Hl.
  - rewrite (responseToFeatureCollection_Some _ _ l Hl).
    split; [|split].
    + split; [discriminate|]. intros [Hf Hr].
      unfold features_or_results in Hl. rewrite Hf, Hr in Hl. discriminate.
    + split; eauto.
    + intros [= ->]. reflexivity.
  - unfold responseToFeatureCollection. rewrite Hl.
    split; [|split].
    + split; [|reflexivity]. intros _. unfold features_or_results in Hl.
      destruct (features response); [discriminate|]. split; [reflexivity|exact Hl].
    + split; intros [x Hx]; discriminate.
    + discriminate.
Qed.

(** C4, as the code has it: [_findIdAttributeFromResponse] takes (a) a
    non-empty [objectIdFieldName]; else (b) the name of the first field of
    type [esriFieldTypeOID], when that name is not empty; else, when there
    is no such field or its name is empty, (c) the name of the first field
    whose name matches the pattern; else it returns [undefined] (the empty
    name of the field of (b), if there was one), and it never looks at the
    features.  The scan of attribute keys is made by
    [responseToFeatureCollection], for every feature on its own keys,
    whenever neither its argument nor the response gave an identifier. *)
Theorem findIdAttributeFromResponse_order (response : Response) :
  (truthy_string (objectIdFieldName response) = true ->
   _findIdAttributeFromResponse response = objectIdFieldName response) /\
  (truthy_string (objectIdFieldName response) = false ->
   (fields response = None -> _findIdAttributeFromResponse response = None) /\
   (forall fs, fields response = Some fs ->
      (forall j f, first_match has_OID_type fs j f ->
         (name f <> "" -> _findIdAttributeFromResponse response = Some (name f)) /\
         (name f = "" ->
          (forall k g, first_match has_known_name fs k g ->
                       _findIdAttributeFromResponse response = Some (name g)) /\
          (Forall (fun g => has_known_name g = false) fs ->
           _findIdAttributeFromResponse response = Some ""))) /\
      (Forall (fun f => has_OID_type f = false) fs ->
       (forall j f, first_match has_known_name fs j f ->
                    _findIdAttributeFromResponse response = Some (name f)) /\
       (Forall (fun f => has_known_name f = false) fs ->
        _findIdAttributeFromResponse response = None)))) /\
  (forall fs rs,
      _findIdAttributeFromResponse
        (mkResponse (objectIdFieldName response) (fields response) fs rs) =
      _findIdAttributeFromResponse response) /\
  (forall idAttribute l,
      features_or_results response = Some l ->
      truthy_string idAttribute = false ->
      truthy_string (_findIdAttributeFromResponse response) = false ->
      exists fc,
        responseToFeatureCollection a2g response idAttribute = Returns fc /\
        forall i, (i < length l)%nat ->
          fc_features fc !! i =
          (fun f => a2g f (_findIdAttributeFromFeature f)) <$> l !! (length l - 1 - i)%nat) /\
  (forall feature attrs,
      attributes feature = Some attrs ->
      (forall j key, first_match match_knownFieldNames attrs.*1 j key ->
                     _findIdAttributeFromFeature feature = Some key) /\
      (Forall (fun key => match_knownFieldNames key = false) attrs.*1 ->
       _findIdAttributeFromFeature feature = None)).
Proof.
  split; [|split; [|split; [|split]]].
  - intros Ha. unfold _findIdAttributeFromResponse. rewrite Ha. reflexivity.
  - intros Ha. unfold _findIdAttributeFromResponse. rewrite Ha. split.
    + intros ->. reflexivity.
    + intros fs ->. split.
      * intros j f Hfirst.
        rewrite (scan_fields_first _ _ j f None Hfirst). simpl. split.
        -- intros Hname. destruct (String.eqb_spec (name f) ""); [contradiction|]. reflexivity.
        -- intros ->. simpl. split.
           ++ intros k g Hg. apply (scan_fields_first _ _ k g _ Hg).
           ++ intros Hnone. apply scan_fields_none, Hnone.
      * intros Hno. rewrite (scan_fields_none _ _ None Hno). simpl. split.
        -- intros j f Hfirst. apply (scan_fields_first _ _ j f None Hfirst).
        -- intros Hnone. apply scan_fields_none, Hnone.
  - reflexivity.
  - intros idAttribute l Hl Hid Hresp.
    eexists. split; [apply responseToFeatureCollection_Some, Hl|]. simpl.
    intros i Hlt. rewrite list_lookup_fmap, reverse_lookup by exact Hlt.
    replace (length l - S i)%nat with (length l - 1 - i)%nat by lia.
    rewrite Hid. unfold or_string. rewrite Hresp. reflexivity.
  - intros feature attrs Hattrs. unfold _findIdAttributeFromFeature. rewrite Hattrs.
    split.
    + intros j key Hfirst. apply (scan_keys_first _ j key Hfirst).
    + apply scan_keys_none.
Qed.

End FeatureCollectionProperties.

(** C3 on a response of three features. *)
Lemma responseToFeatureCollection_reversed_witness :
  exists fc,
    responseToFeatureCollection sample_a2g
      (mkResponse None None None (Some sample_features)) None = Returns fc /\
    fc_type fc = "FeatureCollection" /\
    length (fc_features fc) = length sample_features /\
    (forall i, (i < length sample_features)%nat ->
       fc_features fc !! i =
       (fun f => sample_a2g f (or_string None (_findIdAttributeFromFeature f)))
         <$> sample_features !! (length sample_features - 1 - i)%nat).
Proof.
  exact (responseToFeatureCollection_reversed sample_a2g
           (mkResponse None None None (Some sample_features)) None sample_features
           eq_refl).
Defined.

(** C4 as stated fails: without any metadata the first feature has a key
    that matches the pattern, and [_findIdAttributeFromResponse] still
    returns [undefined]. *)
Lemma findIdAttributeFromResponse_ignores_features :
  let response := mkResponse None None (Some sample_features) None in
  objectIdFieldName response = None /\ fields response = None /\
  (head sample_features ≫= _findIdAttributeFromFeature) = Some "FID" /\
  _findIdAttributeFromResponse response = None.
Proof. repeat split. Qed.

(** ** Geometry types *)

(** C6: on a string [geojsonTypeToArcGIS] is the lookup in the six-entry map
    [geometry_types] (so [undefined] outside its six keys), and on any value
    that is not a string it is [undefined]. *)
Theorem geojsonTypeToArcGIS_table :
  (forall s, geojsonTypeToArcGIS (VString s) = geometry_types !! s) /\
  (forall v, (forall s, v <> VString s) -> geojsonTypeToArcGIS v = None) /\
  map_to_list geometry_types ≡ₚ
    [("Point", "esriGeometryPoint");
     ("MultiPoint", "esriGeometryMultipoint");
     ("LineString", "esriGeometryPolyline");
     ("MultiLineString", "esriGeometryPolyline");
     ("Polygon", "esriGeometryPolygon");
     ("MultiPolygon", "esriGeometryPolygon")] /\
  (forall s, s ∉ ["Point"; "MultiPoint"; "LineString"; "MultiLineString";
                  "Polygon"; "MultiPolygon"] ->
             geojsonTypeToArcGIS (VString s) = None).
Proof.
  assert (Hlookup : forall s, geojsonTypeToArcGIS (VString s) = geometry_types !! s).
  { intros s. unfold geojsonTypeToArcGIS, geometry_types. simpl.
    repeat match goal with
           | |- context [String.eqb s ?k] =>
               destruct (String.eqb_spec s k) as [->|?];
               [ rewrite ?lookup_insert_ne by discriminate;
                 rewrite lookup_insert_eq; reflexivity | ]
           end.
    rewrite !lookup_insert_ne by (intros Heq; symmetry in Heq; contradiction).
    rewrite lookup_empty. reflexivity. }
  split; [exact Hlookup|]. split; [|split].
  - intros v Hv. destruct v; try reflexivity. destruct (Hv s eq_refl).
  - unfold geometry_types. apply map_to_list_to_map.
    apply (bool_decide_unpack _). vm_compute. exact I.
  - intros s Hs. rewrite Hlookup. unfold geometry_types. simpl.
    rewrite !lookup_insert_ne by (intros <-; apply Hs; set_solver).
    apply lookup_empty.
Qed.

(** ** URL normalisation *)

Lemma trimStart_split (s : string) :
  exists pre, s = pre +:+ trimStart s /\ all_white_space pre = true.
Proof.
  induction s as [|c s (pre & Hs & Hpre)]; simpl.
  - exists EmptyString. split; reflexivity.
  - destruct (is_white_space c) eqn:Hc.
    + exists (String c pre). split; [|simpl; rewrite Hc; exact Hpre].
      change (String c s = String c (pre +:+ trimStart s)). f_equal. exact Hs.
    + exists EmptyString. split; reflexivity.
Qed.

Lemma trimEnd_split (s : string) :
  exists post, s = trimEnd s +:+ post /\ all_white_space post = true.
Proof.
  induction s as [|c s (post & Hs & Hpost)]; simpl.
  - exists EmptyString. split; reflexivity.
  - destruct (trimEnd s) as [|d t] eqn:Ht.
    + destruct (is_white_space c) eqn:Hc.
      * exists (String c post). split; [|simpl; rewrite Hc; exact Hpost].
        change (s = post) in Hs. change (String c s = String c post).
        f_equal. exact Hs.
      * exists post. split; [|exact Hpost].
        change (s = post) in Hs. change (String c s = String c post).
        f_equal. exact Hs.
    + exists post. split; [|exact Hpost].
      change (String c s = String c (String d t +:+ post)). f_equal. exact Hs.
Qed.

Lemma trimStart_starts_clean (s : string) : starts_clean (trimStart s).
Proof.
  induction s as [|c s IH]; simpl; [exact I|].
  destruct (is_white_space c) eqn:Hc; [exact IH|exact Hc].
Qed.

Lemma trimEnd_starts_clean (s : string) : starts_clean s -> starts_clean (trimEnd s).
Proof.
  destruct s as [|c s]; simpl; [trivial|]. intros Hc.
  destruct (trimEnd s); [rewrite Hc|]; exact Hc.
Qed.

Lemma trimEnd_ends_clean (s : string) : ends_clean (trimEnd s).
Proof.
  unfold ends_clean. induction s as [|c s IH]; simpl; [exact I|].
  destruct (trimEnd s) as [|d t] eqn:Ht.
  - destruct (is_white_space c) eqn:Hc; simpl; [exact I|exact Hc].
  - exact IH.
Qed.

Lemma trimStart_fixed (s : string) : starts_clean s -> trimStart s = s.
Proof. destruct s as [|c s]; simpl; [reflexivity|]. intros ->. reflexivity. Qed.

Lemma trimEnd_fixed (s : string) : ends_clean s -> trimEnd s = s.
Proof.
  unfold ends_clean. induction s as [|c s IH]; simpl; [reflexivity|].
  destruct s as [|d t].
  - simpl. intros ->. reflexivity.
  - intros H. rewrite (IH H). reflexivity.
Qed.

Lemma trim_fixed (s : string) : starts_clean s -> ends_clean s -> trim s = s.
Proof.
  intros Hs He. unfold trim. rewrite (trimStart_fixed s Hs). apply trimEnd_fixed, He.
Qed.

Lemma last_char_separator (s : string) : last_char (s +:+ "/") = Some "/"%char.
Proof.
  induction s as [|c s IH]; [reflexivity|].
  simpl. destruct (s +:+ "/") eqn:Hs; [destruct s; discriminate|exact IH].
Qed.

Lemma starts_clean_separator (s : string) : starts_clean s -> starts_clean (s +:+ "/").
Proof. destruct s; simpl; [reflexivity|trivial]. Qed.

Lemma trailing_separators_app (s : string) :
  trailing_separators (s +:+ "/") = S (trailing_separators s).
Proof.
  induction s as [|c s IH]; [reflexivity|].
  simpl. rewrite IH.
  replace (String.length (s +:+ "/")) with (S (String.length s))
    by (clear; induction s; simpl; congruence).
  change (S (trailing_separators s) =? S (String.length s))%nat
    with (trailing_separators s =? String.length s)%nat.
  destruct ((trailing_separators s =? String.length s)%nat && Ascii.eqb c "/"); reflexivity.
Qed.

Lemma trailing_separators_last (s : string) :
  trailing_separators s = 0%nat <-> last_char s <> Some "/"%char.
Proof.
  induction s as [|c s IH]; simpl.
  - split; [discriminate|reflexivity].
  - destruct s as [|d t].
    + simpl. destruct (Ascii.eqb_spec c "/") as [->|Hc]; split; try congruence.
    + rewrite <- IH.
      destruct (trailing_separators (String d t)) as [|n] eqn:Hn.
      * simpl. tauto.
      * destruct (_ && _); split; discriminate.
Qed.

Lemma cleanUrl_cases (url : string) :
  (last_char (trim url) = Some "/"%char /\ cleanUrl url = trim url) \/
  (last_char (trim url) <> Some "/"%char /\ cleanUrl url = trim url +:+ "/").
Proof.
  unfold cleanUrl. destruct (decide (last_char (trim url) = Some "/"%char)) as [H|H].
  - left. rewrite bool_decide_eq_true_2 by exact H. split; [exact H|reflexivity].
  - right. rewrite bool_decide_eq_false_2 by exact H. split; [exact H|reflexivity].
Qed.

Lemma cleanUrl_last (url : string) : last_char (cleanUrl url) = Some "/"%char.
Proof.
  destruct (cleanUrl_cases url) as [[H ->]|[_ ->]]; [exact H|apply last_char_separator].
Qed.

(** C7, as the code has it: [cleanUrl] removes the white space around the
    url and appends one separator exactly when the trimmed url does not end
    with one, so the result ends with as many separators as the trimmed url
    does, and with one when that has none; the two examples hold, and
    [cleanUrl] is idempotent. *)
Theorem cleanUrl_idempotent :
  cleanUrl " http://x " = "http://x/" /\
  cleanUrl "http://x/" = "http://x/" /\
  forall url,
    (exists pre post,
        url = pre +:+ trim url +:+ post /\
        all_white_space pre = true /\ all_white_space post = true /\
        starts_clean (trim url) /\ ends_clean (trim url)) /\
    (cleanUrl url = trim url \/ cleanUrl url = trim url +:+ "/") /\
    last_char (cleanUrl url) = Some "/"%char /\
    trailing_separators (cleanUrl url) = Nat.max 1 (trailing_separators (trim url)) /\
    cleanUrl (cleanUrl url) = cleanUrl url.
Proof.
  split; [reflexivity|]. split; [reflexivity|]. intros url.
  assert (Hstart : starts_clean (trim url))
    by apply trimEnd_starts_clean, trimStart_starts_clean.
  assert (Hend : ends_clean (trim url)) by apply trimEnd_ends_clean.
  split; [|split; [|split; [|split]]].
  - destruct (trimStart_split url) as (pre & Hpre & Hws).
    destruct (trimEnd_split (trimStart url)) as (post & Hpost & Hws').
    exists pre, post. unfold trim at 1. rewrite <- Hpost, <- Hpre. auto.
  - destruct (cleanUrl_cases url) as [[_ H]|[_ H]]; auto.
  - apply cleanUrl_last.
  - destruct (cleanUrl_cases url) as [[H ->]|[H ->]].
    + destruct (trailing_separators (trim url)) as [|n] eqn:Hn; [|reflexivity].
      apply trailing_separators_last in Hn. contradiction.
    + rewrite trailing_separators_app.
      apply trailing_separators_last in H. rewrite H. reflexivity.
  - assert (Hfix : trim (cleanUrl url) = cleanUrl url).
    { apply trim_fixed.
      - destruct (cleanUrl_cases url) as [[_ ->]|[_ ->]];
          [exact Hstart|apply starts_clean_separator, Hstart].
      - unfold ends_clean. rewrite cleanUrl_last. reflexivity. }
    unfold cleanUrl at 1. rewrite Hfix, cleanUrl_last.
    rewrite bool_decide_eq_true_2 by reflexivity. reflexivity.
Qed.

(** C7 as stated fails: the result may end with more than one separator. *)
Lemma cleanUrl_keeps_two_separators :
  cleanUrl "http://x//" = "http://x//" /\
  trailing_separators (cleanUrl "http://x//") = 2%nat.
Proof. split; reflexivity. Qed.

(** ** Query geometry *)

Lemma get_object (cls : jsclass) (props : list (string * value)) (key : string) :
  get (VObject cls props) key = Returns (default VUndefined (assoc key props)).
Proof. reflexivity. Qed.

Lemma get_only_TypeError (v : value) (key : string) : only_TypeError (get v key).
Proof. destruct v; simpl; trivial. Qed.

Lemma call_only_TypeError (v : value) : only_TypeError (call v).
Proof. destruct v; simpl; trivial. Qed.

Lemma index_only_TypeError (v : value) (i : nat) : only_TypeError (index v i).
Proof. destruct v; simpl; trivial. Qed.

Lemma bind_only_TypeError {A B} (c : completion A) (k : A -> completion B) :
  only_TypeError c -> (forall a, only_TypeError (k a)) -> only_TypeError (c ≫= k).
Proof. destruct c; simpl; auto. Qed.

Lemma step_getLatLng_only_TypeError (g : value) : only_TypeError (step_getLatLng g).
Proof.
  apply bind_only_TypeError; [apply get_only_TypeError|].
  intros a. destruct (truthy a); [apply call_only_TypeError|exact I].
Qed.

Lemma step_toGeoJSON_only_TypeError (g : value) : only_TypeError (step_toGeoJSON g).
Proof.
  apply bind_only_TypeError; [apply get_only_TypeError|].
  intros a. destruct (truthy a); [apply call_only_TypeError|exact I].
Qed.

Lemma step_Feature_only_TypeError (g : value) : only_TypeError (step_Feature g).
Proof.
  apply bind_only_TypeError; [apply get_only_TypeError|].
  intros a. destruct (is_string a "Feature"); [apply get_only_TypeError|exact I].
Qed.

Lemma is_string_accepted (t : string) :
  is_string (VString t) "Point" || is_string (VString t) "LineString"
  || is_string (VString t) "Polygon" || is_string (VString t) "MultiPolygon"
  = bool_decide (t ∈ accepted_types).
Proof.
  unfold accepted_types. simpl.
  destruct (String.eqb_spec t "Point") as [->|H1]; [reflexivity|].
  destruct (String.eqb_spec t "LineString") as [->|H2]; [reflexivity|].
  destruct (String.eqb_spec t "Polygon") as [->|H3]; [reflexivity|].
  destruct (String.eqb_spec t "MultiPolygon") as [->|H4]; [reflexivity|].
  symmetry. apply bool_decide_eq_false_2.
  rewrite !elem_of_cons, elem_of_nil. tauto.
Qed.

Section GeometryProperties.

Variable g2a : value -> option string -> value.

Lemma step_GeoJSON_only_TypeError (g : value) (params : Params) :
  only_TypeError (step_GeoJSON g2a g params).
Proof.
  destruct g as [| | | | | | |[] props]; try exact I. unfold step_GeoJSON.
  repeat (apply bind_only_TypeError;
          [first [apply get_only_TypeError | apply call_only_TypeError
                 | apply index_only_TypeError] | intros ?]).
  exact I.
Qed.

Lemma step_confirm_typed (g : value) (t : string) (console : Console) :
  typed_object g t -> step_confirm g2a g console = answer g2a g t console.
Proof.
  intros (cls & props & -> & Ht). unfold step_confirm, answer. simpl. rewrite Ht. simpl.
  change (String.eqb t "Point" || String.eqb t "LineString" || String.eqb t "Polygon"
          || String.eqb t "MultiPolygon")
    with (is_string (VString t) "Point" || is_string (VString t) "LineString"
          || is_string (VString t) "Polygon" || is_string (VString t) "MultiPolygon").
  rewrite is_string_accepted. reflexivity.
Qed.

Lemma step_confirm_outcome (g : value) (console : Console) :
  setGeometry_outcome console (step_confirm g2a g console).
Proof.
  unfold step_confirm.
  destruct (get g "type") as [t|e|] eqn:Hget; simpl.
  - destruct t; simpl; try reflexivity.
    destruct (String.eqb_spec s "Point") as [->|H1];
      [simpl; split; [reflexivity|split; [eauto|set_solver]]|].
    destruct (String.eqb_spec s "LineString") as [->|H2];
      [simpl; split; [reflexivity|split; [eauto|set_solver]]|].
    destruct (String.eqb_spec s "Polygon") as [->|H3];
      [simpl; split; [reflexivity|split; [eauto|set_solver]]|].
    destruct (String.eqb_spec s "MultiPolygon") as [->|H4];
      [simpl; split; [reflexivity|split; [eauto|set_solver]]|].
    reflexivity.
  - pose proof (get_only_TypeError g "type") as H. rewrite Hget in H. exact H.
  - pose proof (get_only_TypeError g "type") as H. rewrite Hget in H. exact H.
Qed.

Lemma bind_outcome {A} (console : Console) (c : completion A)
    (k : A -> completion (option Params * Console)) :
  only_TypeError c -> (forall a, setGeometry_outcome console (k a)) ->
  setGeometry_outcome console (c ≫= k).
Proof. destruct c; simpl; auto. Qed.

(** Every call ends in one of the three ways. *)
Lemma setGeometry_outcomes (g : value) (console : Console) :
  setGeometry_outcome console (_setGeometry g2a g console).
Proof.
  assert (Hrest : setGeometry_outcome console
            (geometry ← step_getLatLng g;
             '(geometry, params) ← step_GeoJSON g2a (step_LatLng geometry) (mkParams None None);
             geometry ← step_toGeoJSON geometry;
             geometry ← step_Feature geometry;
             step_confirm g2a geometry console)).
  { apply bind_outcome; [apply step_getLatLng_only_TypeError|]. intros g1.
    apply bind_outcome; [apply step_GeoJSON_only_TypeError|]. intros [g2 params].
    apply bind_outcome; [apply step_toGeoJSON_only_TypeError|]. intros g3.
    apply bind_outcome; [apply step_Feature_only_TypeError|]. intros g4.
    apply step_confirm_outcome. }
  destruct g as [| | | | | | |cls props]; try exact Hrest.
  destruct cls as [[b|]| | |]; try exact Hrest.
  - simpl. split; [reflexivity|]. split; [eauto|set_solver].
  - reflexivity.
Qed.

Lemma step_getLatLng_absent (cls : jsclass) (props : list (string * value)) :
  assoc "getLatLng" props = None ->
  step_getLatLng (VObject cls props) = Returns (VObject cls props).
Proof. intros H. unfold step_getLatLng. simpl. rewrite H. reflexivity. Qed.

Lemma step_toGeoJSON_absent (cls : jsclass) (props : list (string * value)) :
  assoc "toGeoJSON" props = None ->
  step_toGeoJSON (VObject cls props) = Returns (VObject cls props).
Proof. intros H. unfold step_toGeoJSON. simpl. rewrite H. reflexivity. Qed.

(** The steps after [step_toGeoJSON] on a Feature. *)
Lemma step_Feature_confirm (f g : value) (t : string) (console : Console) :
  typed_object f "Feature" -> get f "geometry" = Returns g -> typed_object g t ->
  (geometry ← step_Feature f; step_confirm g2a geometry console) = answer g2a g t console.
Proof.
  intros (cls & props & -> & Hf) Hg Ht. unfold step_Feature.
  simpl in *. rewrite Hf. simpl. injection Hg as ->.
  apply step_confirm_typed, Ht.
Qed.

(** The same steps on an object of another type. *)
Lemma step_geometry_confirm (g : value) (t : string) (console : Console) :
  typed_object g t -> t <> "Feature" ->
  (geometry ← step_Feature g; step_confirm g2a geometry console) = answer g2a g t console.
Proof.
  intros Ht Hfeature. pose proof Ht as (cls & props & -> & Htype). unfold step_Feature.
  simpl. rewrite Htype. simpl.
  destruct (String.eqb_spec t "Feature") as [?|_]; [contradiction|].
  apply step_confirm_typed, Ht.
Qed.

(** The last [if] statement on the value that the conversions end on. *)
Lemma step_confirm_cases (v : value) (console : Console) :
  step_confirm g2a v console =
  match v with
  | VUndefined | VNull => Throws TypeError
  | _ =>
      match type_of v with
      | Some t => answer g2a v t console
      | None => Returns (None, warn invalid_geometry_warning console)
      end
  end.
Proof.
  destruct v as [| | | | | | |cls props]; try reflexivity.
  destruct (type_of (VObject cls props)) as [t|] eqn:Ht.
  - apply step_confirm_typed. eexists _, _. split; [reflexivity|].
    simpl in Ht. destruct (assoc "type" props) as [[]|]; try discriminate.
    injection Ht as ->. reflexivity.
  - unfold step_confirm. rewrite get_object. simpl in Ht.
    destruct (assoc "type" props) as [[]|]; try discriminate; reflexivity.
Qed.

Lemma cascade_only_TypeError (g : value) : only_TypeError (cascade g2a g).
Proof.
  unfold cascade.
  apply bind_only_TypeError; [apply step_getLatLng_only_TypeError|]. intros g1.
  apply bind_only_TypeError; [apply step_GeoJSON_only_TypeError|]. intros [g2 params].
  apply bind_only_TypeError; [apply step_toGeoJSON_only_TypeError|]. intros g3.
  apply step_Feature_only_TypeError.
Qed.

(** A call on anything but a bounds object is the conversions followed by
    the last [if] statement. *)
Lemma setGeometry_cascade (g : value) (console : Console) :
  not_LatLngBounds g ->
  _setGeometry g2a g console = (v ← cascade g2a g; step_confirm g2a v console).
Proof.
  intros Hg.
  assert (Hrest :
            (geometry ← step_getLatLng g;
             '(geometry, params) ← step_GeoJSON g2a (step_LatLng geometry) (mkParams None None);
             geometry ← step_toGeoJSON geometry;
             geometry ← step_Feature geometry;
             step_confirm g2a geometry console)
            = (v ← cascade g2a g; step_confirm g2a v console)).
  { unfold cascade. destruct (step_getLatLng g) as [g1|e|]; try reflexivity.
    cbn [mbind completion_bind].
    destruct (step_GeoJSON g2a (step_LatLng g1) (mkParams None None)) as [[g2 params]|e|];
      try reflexivity.
    cbn [mbind completion_bind].
    destruct (step_toGeoJSON g2) as [g3|e|]; reflexivity. }
  destruct g as [| | | | | | |cls props]; try exact Hrest.
  destruct cls as [b| | |]; try exact Hrest.
  exfalso. exact (Hg b props eq_refl).
Qed.

(** The four ways a call on anything but a bounds object can go. *)
Lemma setGeometry_by_cascade (g : value) (console : Console) :
  not_LatLngBounds g ->
  (cascade g2a g = Throws TypeError /\ _setGeometry g2a g console = Throws TypeError) \/
  (exists v, cascade g2a g = Returns v /\ (v = VUndefined \/ v = VNull) /\
             _setGeometry g2a g console = Throws TypeError) \/
  (exists v t, cascade g2a g = Returns v /\ type_of v = Some t /\ t ∈ accepted_types /\
               _setGeometry g2a g console =
               Returns (Some (mkParams (Some (GArcGIS (g2a v None)))
                                       (geojsonTypeToArcGIS (VString t))), console)) \/
  (exists v, cascade g2a g = Returns v /\ v <> VUndefined /\ v <> VNull /\
             (forall t, type_of v = Some t -> t ∉ accepted_types) /\
             _setGeometry g2a g console =
             Returns (None, warn invalid_geometry_warning console)).
Proof.
  intros Hg. rewrite (setGeometry_cascade g console Hg).
  pose proof (cascade_only_TypeError g) as Honly.
  destruct (cascade g2a g) as [v|e|]; simpl in Honly; [|subst e; left; split; reflexivity|tauto].
  right. cbn [mbind completion_bind]. rewrite step_confirm_cases.
  assert (Hother :
            v <> VUndefined -> v <> VNull ->
            match type_of v with
            | Some t => answer g2a v t console
            | None => Returns (None, warn invalid_geometry_warning console)
            end = step_confirm g2a v console ->
            (exists v' t, Returns v = Returns v' /\ type_of v' = Some t /\ t ∈ accepted_types /\
                          step_confirm g2a v console =
                          Returns (Some (mkParams (Some (GArcGIS (g2a v' None)))
                                                  (geojsonTypeToArcGIS (VString t))), console)) \/
            (exists v', Returns v = Returns v' /\ v' <> VUndefined /\ v' <> VNull /\
                        (forall t, type_of v' = Some t -> t ∉ accepted_types) /\
                        step_confirm g2a v console =
                        Returns (None, warn invalid_geometry_warning console))).
  { intros Hu Hn <-. destruct (type_of v) as [t|] eqn:Ht.
    - unfold answer. destruct (decide (t ∈ accepted_types)) as [Hin|Hout].
      + left. exists v, t. rewrite bool_decide_eq_true_2 by exact Hin. auto.
      + right. exists v. rewrite bool_decide_eq_false_2 by exact Hout.
        split; [reflexivity|]. split; [exact Hu|]. split; [exact Hn|]. split; [|reflexivity].
        intros t' Heq. rewrite Ht in Heq. injection Heq as <-. exact Hout.
    - right. exists v.
      split; [reflexivity|]. split; [exact Hu|]. split; [exact Hn|]. split; [|reflexivity].
      intros t' Heq. rewrite Ht in Heq. discriminate. }
  rewrite <- (step_confirm_cases v console).
  destruct v as [| | | | | | |cls props];
    try (right; apply Hother;
         [discriminate|discriminate|symmetry; apply step_confirm_cases]).
  - left. exists VUndefined. auto.
  - left. exists VNull. auto.
  - right. apply Hother; [discriminate|discriminate|].
    rewrite (step_confirm_cases (VObject cls props) console). reflexivity.
Qed.

(** C5, as the code has it.  [_setGeometry] returns a pair, without a
    warning, for a bounds object with its corners, for a [LatLng] or a
    marker (as a Point), and whenever its conversions end on an object of
    type Point, LineString, Polygon or MultiPolygon: a GeoJSON geometry
    itself, the geometry of a Feature, of what [toGeoJSON] returns, or of
    the first layer of an [L.GeoJSON].  On anything but a bounds object it
    warns and returns [undefined] exactly when the conversions end, without
    an error, on a value other than [undefined] and [null] that has none of
    these four strings under [type]: a Feature or a layer with a MultiPoint,
    an object without [type], a boolean, a number, a string, an array or a
    function.  It throws a [TypeError] exactly when a conversion throws or
    ends on [undefined] or [null]: on [null] and [undefined] themselves, on
    an object whose [getLatLng] is not a function; so does an empty bounds
    object.  Every call ends in one of these three ways. *)
Theorem setGeometry_shapes (console : Console) :
  (forall b props,
      _setGeometry g2a (VObject (ClsLatLngBounds (Some b)) props) console =
      Returns (Some (mkParams (Some (GExtent (boundsToExtent (Instance b))))
                              (Some "esriGeometryEnvelope")), console)) /\
  (forall p props,
      assoc "getLatLng" props = None ->
      _setGeometry g2a (VObject (ClsLatLng p) props) console =
      answer g2a (point_of p) "Point" console) /\
  (forall props p ps,
      assoc "getLatLng" props = Some (VFunction (VObject (ClsLatLng p) ps)) ->
      _setGeometry g2a (VObject ClsObject props) console =
      answer g2a (point_of p) "Point" console) /\
  (forall g t,
      geojson_object g t -> t <> "Feature" ->
      _setGeometry g2a g console = answer g2a g t console) /\
  (forall f g t,
      geojson_object f "Feature" -> get f "geometry" = Returns g -> typed_object g t ->
      _setGeometry g2a f console = answer g2a g t console) /\
  (forall props f g t,
      assoc "getLatLng" props = None ->
      assoc "toGeoJSON" props = Some (VFunction f) ->
      typed_object f "Feature" -> get f "geometry" = Returns g -> typed_object g t ->
      _setGeometry g2a (VObject ClsObject props) console = answer g2a g t console) /\
  (forall props layer layers feature g t,
      assoc "getLatLng" props = None ->
      assoc "getLayers" props = Some (VFunction (VArray (layer :: layers))) ->
      get layer "feature" = Returns feature -> get feature "geometry" = Returns g ->
      geojson_object g t -> t <> "Feature" ->
      _setGeometry g2a (VObject ClsGeoJSON props) console = answer g2a g t console) /\
  (forall v,
      match v with
      | VBool _ | VNumber _ | VString _ | VArray _ | VFunction _ =>
          _setGeometry g2a v console = Returns (None, warn invalid_geometry_warning console)
      | _ => True
      end) /\
  (forall props,
      assoc "getLatLng" props = None -> assoc "toGeoJSON" props = None ->
      type_of (VObject ClsObject props) = None ->
      _setGeometry g2a (VObject ClsObject props) console =
      Returns (None, warn invalid_geometry_warning console)) /\
  (forall g,
      not_LatLngBounds g ->
      (_setGeometry g2a g console = Returns (None, warn invalid_geometry_warning console) <->
       exists v, cascade g2a g = Returns v /\ v <> VUndefined /\ v <> VNull /\
                 forall t, type_of v = Some t -> t ∉ accepted_types) /\
      (forall params console',
          _setGeometry g2a g console = Returns (Some params, console') <->
          exists v t, cascade g2a g = Returns v /\ type_of v = Some t /\ t ∈ accepted_types /\
                      params = mkParams (Some (GArcGIS (g2a v None)))
                                        (geojsonTypeToArcGIS (VString t)) /\
                      console' = console) /\
      (_setGeometry g2a g console = Throws TypeError <->
       cascade g2a g = Throws TypeError \/ cascade g2a g = Returns VUndefined \/
       cascade g2a g = Returns VNull)) /\
  (_setGeometry g2a VNull console = Throws TypeError /\
   _setGeometry g2a VUndefined console = Throws TypeError) /\
  (forall props,
      _setGeometry g2a (VObject (ClsLatLngBounds None) props) console = Throws TypeError) /\
  (forall cls props v,
      (forall b, cls <> ClsLatLngBounds b) ->
      assoc "getLatLng" props = Some v -> truthy v = true -> (forall r, v <> VFunction r) ->
      _setGeometry g2a (VObject cls props) console = Throws TypeError) /\
  (forall g, setGeometry_outcome console (_setGeometry g2a g console)).
Proof.
  assert (Hpoint : forall p, typed_object (point_of p) "Point")
    by (intros p; eexists _, _; split; reflexivity).
  assert (Htyped : forall g t, geojson_object g t -> typed_object g t)
    by (intros g t (props & -> & _ & _ & Ht); eexists _, _; split; [reflexivity|exact Ht]).
  repeat apply conj.
  - reflexivity.
  - intros p props Hll. unfold _setGeometry. rewrite step_getLatLng_absent by exact Hll.
    cbn -[step_Feature step_confirm answer point_of].
    apply step_geometry_confirm; [apply Hpoint|discriminate].
  - intros props p ps Hll. unfold _setGeometry, step_getLatLng. simpl get. rewrite Hll.
    cbn -[step_Feature step_confirm answer point_of].
    apply step_geometry_confirm; [apply Hpoint|discriminate].
  - intros g t Hg Hfeature. pose proof Hg as (props & -> & Hll & Hgj & Ht).
    unfold _setGeometry. rewrite step_getLatLng_absent by exact Hll.
    cbn -[step_toGeoJSON step_Feature step_confirm answer].
    rewrite step_toGeoJSON_absent by exact Hgj.
    cbn -[step_Feature step_confirm answer].
    apply step_geometry_confirm; [apply Htyped, Hg|exact Hfeature].
  - intros f g t Hf Hg Ht. pose proof Hf as (props & -> & Hll & Hgj & Htype).
    unfold _setGeometry. rewrite step_getLatLng_absent by exact Hll.
    cbn -[step_toGeoJSON step_Feature step_confirm answer].
    rewrite step_toGeoJSON_absent by exact Hgj.
    cbn -[step_Feature step_confirm answer get].
    apply step_Feature_confirm; [apply Htyped, Hf|exact Hg|exact Ht].
  - intros props f g t Hll Hgj Hf Hg Ht.
    unfold _setGeometry. rewrite step_getLatLng_absent by exact Hll.
    cbn -[step_toGeoJSON step_Feature step_confirm answer get].
    unfold step_toGeoJSON. simpl get. rewrite Hgj.
    cbn -[step_Feature step_confirm answer get].
    apply step_Feature_confirm; assumption.
  - intros props layer layers feature g t Hll Hlayers Hfeature Hg Hobj Ht.
    pose proof Hobj as (gprops & -> & _ & Hgj & Htype).
    unfold _setGeometry. rewrite step_getLatLng_absent by exact Hll.
    cbn -[step_toGeoJSON step_Feature step_confirm answer get].
    rewrite get_object, Hlayers.
    cbn -[step_toGeoJSON step_Feature step_confirm answer get].
    rewrite Hfeature. cbn -[step_toGeoJSON step_Feature step_confirm answer get].
    rewrite Hg. cbn -[step_toGeoJSON step_Feature step_confirm answer get].
    rewrite get_object, Htype. cbn -[step_toGeoJSON step_Feature step_confirm answer].
    rewrite step_toGeoJSON_absent by exact Hgj.
    cbn -[step_Feature step_confirm answer].
    apply step_geometry_confirm; [apply Htyped, Hobj|exact Ht].
  - intros []; try exact I; reflexivity.
  - intros props Hll Hgj Ht. unfold _setGeometry. rewrite step_getLatLng_absent by exact Hll.
    cbn -[step_toGeoJSON step_Feature step_confirm].
    rewrite step_toGeoJSON_absent by exact Hgj.
    cbn -[step_Feature step_confirm].
    unfold step_Feature, step_confirm, get. simpl in Ht.
    destruct (assoc "type" props) as [[]|] eqn:Htype; try discriminate Ht;
      simpl; rewrite Htype; reflexivity.
  - intros g Hg.
    destruct (setGeometry_by_cascade g console Hg)
      as [[Hc ->]|[(v & Hc & Hv & ->)|[(v & t & Hc & Ht & Hin & ->)|(v & Hc & Hu & Hn & Ht & ->)]]];
      rewrite Hc.
    + split; [|split]; [split|intros params console'; split|split].
      * discriminate.
      * intros (v & [=] & _).
      * discriminate.
      * intros (v & t & [=] & _).
      * tauto.
      * tauto.
    + split; [|split]; [split|intros params console'; split|split].
      * discriminate.
      * intros (v' & [= <-] & Hu & Hn & _). tauto.
      * discriminate.
      * intros (v' & t & [= <-] & Ht & _). destruct Hv as [-> | ->]; discriminate.
      * intros _. destruct Hv as [-> | ->]; tauto.
      * tauto.
    + split; [|split]; [split|intros params console'; split|split].
      * discriminate.
      * intros (v' & [= <-] & _ & _ & Hnot). exfalso. exact (Hnot t Ht Hin).
      * intros [= <- <-]. exists v, t. auto.
      * intros (v' & t' & [= <-] & Ht' & _ & -> & ->). rewrite Ht in Ht'.
        injection Ht' as <-. reflexivity.
      * discriminate.
      * intros [H|[H|H]]; [discriminate| |]; injection H as ->; discriminate.
    + split; [|split]; [split|intros params console'; split|split].
      * intros _. exists v. auto.
      * reflexivity.
      * discriminate.
      * intros (v' & t & [= <-] & Ht' & Hin & _). exfalso. exact (Ht t Ht' Hin).
      * discriminate.
      * intros [H|[H|H]]; [discriminate| |]; injection H as ->; contradiction.
  - reflexivity.
  - reflexivity.
  - reflexivity.
  - intros cls props v Hcls Hll Htruthy Hfun.
    assert (Hstep : step_getLatLng (VObject cls props) = Throws TypeError).
    { unfold step_getLatLng. rewrite get_object, Hll. simpl. rewrite Htruthy.
      destruct v; try reflexivity. exfalso. exact (Hfun _ eq_refl). }
    unfold _setGeometry. rewrite Hstep.
    destruct cls as [b| | |]; try reflexivity. exfalso. exact (Hcls b eq_refl).
  - intros g. apply setGeometry_outcomes.
Qed.

End GeometryProperties.

(** C5 as stated fails, for a recognised shape and for an unrecognised one:
    a GeoJSON Feature whose geometry is a MultiPoint gets the warning and
    [undefined], not a pair; and on [null] the first property read throws,
    before any warning. *)
Lemma setGeometry_feature_of_MultiPoint :
  let console := mkConsole true [] in
  geojson_object (sample_feature_of sample_multipoint) "Feature" /\
  _setGeometry sample_g2a (sample_feature_of sample_multipoint) console =
  Returns (None, mkConsole true [invalid_geometry_warning]) /\
  _setGeometry sample_g2a VNull console = Throws TypeError.
Proof. split; [eexists; repeat split|split; reflexivity]. Qed.

(** On [null] the call does not come to the warning: the first property
    read throws. *)
Lemma setGeometry_null_throws (g2a : value -> option string -> value) (console : Console) :
  _setGeometry g2a VNull console = Throws TypeError /\
  _setGeometry g2a VUndefined console = Throws TypeError.
Proof. split; reflexivity. Qed.

(** ** Attribution *)

Section AttributionProperties.

Variable attributionWidthOffset : Qc.
Variable wrap : LatLng -> LatLng.
Variable jsonp : string -> option LookupError * option AttributionData.

(** C9: when the lookup completes with an error, the callback returns at
    once and the map, [_esriAttributions] included, is as it was. *)
Theorem getAttributionData_error_keeps_map (url : string) (map : Map) (e : LookupError) :
  (jsonp url).1 = Some e ->
  _getAttributionData attributionWidthOffset wrap jsonp url map = (map, Returns ()) /\
  _esriAttributions (_getAttributionData attributionWidthOffset wrap jsonp url map).1 =
  _esriAttributions map.
Proof.
  intros He. unfold _getAttributionData. destruct (jsonp url) as [error attributions].
  simpl in He. subst error. split; reflexivity.
Qed.

End AttributionProperties.

(** C9 on a map that holds two records. *)
Lemma getAttributionData_error_keeps_map_witness :
  let jsonp := fun _ : string => (Some (mkLookupError 404 "Not Found"), None) in
  let map := sample_map "Esri" in
  _getAttributionData (Qc_of_Z 55) id jsonp "https://static.arcgis.com/attribution/World_Topo_Map" map
  = (map, Returns ()) /\
  _esriAttributions
    (_getAttributionData (Qc_of_Z 55) id jsonp
       "https://static.arcgis.com/attribution/World_Topo_Map" map).1 =
  _esriAttributions map.
Proof.
  exact (getAttributionData_error_keeps_map (Qc_of_Z 55) id
           (fun _ : string => (Some (mkLookupError 404 "Not Found"), None))
           "https://static.arcgis.com/attribution/World_Topo_Map" (sample_map "Esri")
           (mkLookupError 404 "Not Found") eq_refl).
Defined.

(** C8 on a text with parentheses: [String.prototype.match] reads the text
    as a pattern, in which the parentheses are a group, so the text is not
    found in the string built so far and is added a second time. *)
Theorem updateMapAttribution_repeats_text_with_parentheses :
  let text := "Esri China (Hong Kong)" in
  let map' := (_updateMapAttribution (Qc_of_Z 55) id (sample_map text)).1 in
  Forall (fun a => attribution a = text /\
                   intersects (bounds a) (latLngBounds (getSouthWest sample_view)
                                                       (getNorthEast sample_view)) = true /\
                   bool_decide (minZoom a ≤ Qc_of_Z 5)%Qc = true /\
                   bool_decide (Qc_of_Z 5 ≤ maxZoom a)%Qc = true)
         (default [] (_esriAttributions (sample_map text))) /\
  RegExp.String_match (", " +:+ text) text = Returns false /\
  (_updateMapAttribution (Qc_of_Z 55) id (sample_map text)).2 = Returns () /\
  shown map' = Some "Esri China (Hong Kong), Esri China (Hong Kong)" /\
  fired map' = [("attributionupdated", "Esri China (Hong Kong), Esri China (Hong Kong)")].
Proof.
  split; [repeat constructor|]. vm_compute. repeat split.
Qed.

(** *** Texts without syntax characters

    For a text of ordinary characters the pattern is the text itself, the
    search is a substring test, and the second of two equal records is
    dropped. *)

Lemma plain_char_tests (c : ascii) :
  RegExp.is_syntax_character c = false ->
  RegExp.one_of "|)" c = false /\ Ascii.eqb c "(" = false /\ Ascii.eqb c "\" = false /\
  Ascii.eqb c "." = false /\ RegExp.one_of "*+?" c = false /\
  Ascii.eqb c "*" = false /\ Ascii.eqb c "+" = false /\ Ascii.eqb c "?" = false.
Proof.
  unfold RegExp.is_syntax_character, RegExp.one_of. simpl. intros H.
  repeat (apply orb_false_elim in H as [? H]).
  repeat match goal with Heq : Ascii.eqb c _ = false |- _ => rewrite Heq; clear Heq end.
  repeat split.
Qed.

Lemma parse_quantifier_plain (r : RegExp.regex) (s : list ascii) :
  plain_text s = true -> RegExp.parse_quantifier r s = (r, s).
Proof.
  destruct s as [|c s]; [reflexivity|]. simpl. intros H.
  apply andb_prop in H as [Hc _]. apply negb_true_iff in Hc.
  destruct (plain_char_tests c Hc) as (_ & _ & _ & _ & _ & -> & -> & ->). reflexivity.
Qed.

Lemma parse_term_plain (c : ascii) (s : list ascii) (fuel : nat) :
  RegExp.is_syntax_character c = false -> plain_text s = true ->
  RegExp.parse_term (S fuel) (c :: s) = RegExp.Ok (RegExp.Chr c, s).
Proof.
  intros Hc Hs. destruct (plain_char_tests c Hc) as (_ & H2 & H3 & H4 & H5 & _).
  simpl. rewrite H2, H3, H4, H5, Hc, (parse_quantifier_plain _ s Hs). reflexivity.
Qed.

Lemma parse_alternative_step (c : ascii) (s : list ascii) (fuel : nat) :
  RegExp.one_of "|)" c = false ->
  RegExp.parse_alternative (S fuel) (c :: s) =
  match RegExp.parse_term fuel (c :: s) with
  | RegExp.Ok (r1, s') =>
      match RegExp.parse_alternative fuel s' with
      | RegExp.Ok (r2, s'') => RegExp.Ok (RegExp.Seq r1 r2, s'')
      | e => e
      end
  | e => e
  end.
Proof. intros H. simpl. rewrite H. reflexivity. Qed.

Lemma parse_alternative_plain (s : list ascii) (fuel : nat) :
  plain_text s = true -> (2 * length s + 1 <= fuel)%nat ->
  RegExp.parse_alternative fuel s = RegExp.Ok (literal s, []).
Proof.
  revert fuel. induction s as [|c s IH]; intros fuel Hplain Hfuel.
  - destruct fuel; [simpl in Hfuel; lia|reflexivity].
  - simpl in Hfuel. destruct fuel as [|[|fuel]]; [lia|lia|].
    simpl in Hplain. apply andb_prop in Hplain as [Hc Hs]. apply negb_true_iff in Hc.
    destruct (plain_char_tests c Hc) as (H1 & _).
    rewrite (parse_alternative_step c s _ H1), (parse_term_plain c s fuel Hc Hs).
    rewrite (IH (S fuel) Hs) by lia. reflexivity.
Qed.

Lemma parse_disjunction_plain (s : list ascii) (fuel : nat) :
  plain_text s = true -> (2 * length s + 2 <= fuel)%nat ->
  RegExp.parse_disjunction fuel s = RegExp.Ok (literal s, []).
Proof.
  intros Hplain Hfuel. destruct fuel as [|fuel]; [lia|].
  simpl. rewrite (parse_alternative_plain s fuel Hplain) by lia. reflexivity.
Qed.

Lemma compile_plain (text : string) :
  plain_text (list_ascii_of_string text) = true ->
  RegExp.compile text = Returns (literal (list_ascii_of_string text)).
Proof.
  intros Hplain. unfold RegExp.compile.
  rewrite (parse_disjunction_plain _ _ Hplain) by lia. reflexivity.
Qed.

Lemma match_here_Seq_Void (r : RegExp.regex) (s : list ascii) :
  RegExp.match_here (RegExp.Seq RegExp.Void r) s = false.
Proof. induction s as [|c s IH]; [reflexivity|exact IH]. Qed.

Lemma match_here_Alt (r1 r2 : RegExp.regex) (s : list ascii) :
  RegExp.match_here (RegExp.Alt r1 r2) s =
  RegExp.match_here r1 s || RegExp.match_here r2 s.
Proof.
  revert r1 r2. induction s as [|c s IH]; intros r1 r2; simpl.
  - rewrite !orb_false_r. reflexivity.
  - rewrite IH. destruct (RegExp.nullable r1), (RegExp.nullable r2); simpl;
      rewrite ?orb_true_r; try reflexivity.
Qed.

Lemma match_here_Seq_Eps (r : RegExp.regex) (s : list ascii) :
  RegExp.match_here (RegExp.Seq RegExp.Eps r) s = RegExp.match_here r s.
Proof.
  destruct s as [|c s]; [reflexivity|]. simpl.
  rewrite match_here_Alt, match_here_Seq_Void. reflexivity.
Qed.

Lemma match_here_literal (t rest : list ascii) :
  RegExp.match_here (literal t) (t ++ rest) = true.
Proof.
  induction t as [|c t IH]; [destruct rest; reflexivity|].
  simpl. rewrite Ascii.eqb_refl, match_here_Seq_Eps. exact IH.
Qed.

Lemma search_suffix (r : RegExp.regex) (before s : list ascii) :
  RegExp.match_here r s = true -> RegExp.search r (before ++ s) = true.
Proof.
  intros H. induction before as [|c before IH].
  - destruct s; simpl in *; rewrite H; reflexivity.
  - simpl. rewrite IH. apply orb_true_r.
Qed.

Lemma search_literal_empty (t : list ascii) :
  t <> [] -> RegExp.search (literal t) [] = false.
Proof. destruct t; [congruence|reflexivity]. Qed.

Lemma list_ascii_of_string_app (a b : string) :
  list_ascii_of_string (a +:+ b) = list_ascii_of_string a ++ list_ascii_of_string b.
Proof.
  induction a as [|c a IH]; [reflexivity|].
  change (c :: list_ascii_of_string (a +:+ b) =
          c :: (list_ascii_of_string a ++ list_ascii_of_string b)).
  rewrite IH. reflexivity.
Qed.

(** The nearby statement that holds: for two records of the same text, when
    the text is not empty and has no syntax character, the string shown and
    the payload of the event are that text, once, without the separator. *)
Lemma updateMapAttribution_plain_text_once (attributionWidthOffset : Qc)
    (wrap : LatLng -> LatLng) (map : Map) (control : AttributionControl) (element : Element)
    (a1 a2 : Attribution) (text : string) :
  let wrappedBounds :=
    latLngBounds (wrap (getSouthWest (getBounds map))) (wrap (getNorthEast (getBounds map))) in
  let visible a :=
    intersects (bounds a) wrappedBounds = true /\
    (minZoom a ≤ getZoom map)%Qc /\ (getZoom map ≤ maxZoom a)%Qc in
  attributionControl map = Some control ->
  esri_dynamic_attribution control = Some element ->
  _esriAttributions map = Some [a1; a2] ->
  attribution a1 = text -> attribution a2 = text ->
  visible a1 -> visible a2 ->
  text <> "" -> plain_text (list_ascii_of_string text) = true ->
  let result := _updateMapAttribution attributionWidthOffset wrap map in
  result.2 = Returns () /\
  shown result.1 = Some text /\
  fired result.1 = fired map ++ [("attributionupdated", text)].
Proof.
  intros wrappedBounds visible Hcontrol Helement Hlist Ha1 Ha2 (Hi1 & Hmin1 & Hmax1)
    (Hi2 & Hmin2 & Hmax2) Hne Hplain.
  assert (Hwhole : RegExp.match_here (literal (list_ascii_of_string text))
                     (list_ascii_of_string text) = true).
  { pose proof (match_here_literal (list_ascii_of_string text) []) as H.
    rewrite app_nil_r in H. exact H. }
  assert (Hloop : concat_attributions wrappedBounds (getZoom map) [a1; a2] ""
                  = Returns (", " +:+ text)).
  { cbn [concat_attributions]. unfold RegExp.String_match.
    rewrite Ha1, Ha2, (compile_plain text Hplain).
    cbn [mbind completion_bind].
    rewrite search_literal_empty
      by (destruct text; [congruence|discriminate]).
    rewrite Hi1, (bool_decide_eq_true_2 _ Hmin1), (bool_decide_eq_true_2 _ Hmax1).
    cbn [negb andb].
    change ("" +:+ ", " +:+ text) with (", " +:+ text).
    rewrite list_ascii_of_string_app, search_suffix by exact Hwhole.
    reflexivity. }
  unfold _updateMapAttribution. rewrite Hcontrol, Hlist.
  fold wrappedBounds. rewrite Hloop, Helement. repeat split.
Qed.

(** A text with an unbalanced parenthesis is not a pattern: the update
    throws and nothing is written. *)
Lemma updateMapAttribution_unbalanced_parenthesis_throws :
  _updateMapAttribution (Qc_of_Z 55) id (sample_map "Esri (Thailand") =
  (sample_map "Esri (Thailand", Throws SyntaxError).
Proof. vm_compute. reflexivity. Qed.

(** ** The properties on sample data *)

(** C1 on an extent of four numbers in order, and on an extent whose
    [xmin] is the number [NaN]. *)
Lemma extentToBounds_null_iff_some_NaN_witness :
  (exists b,
     extentToBounds (mkExtent (Num (Qc_of_Z 10)) (Num (Qc_of_Z 20)) (Num (Qc_of_Z 30))
                              (Num (Qc_of_Z 40)) None) = Returns (Some b) /\
     getSouthWest b = mkLatLng (Qc_of_Z 20) (Qc_of_Z 10) /\
     getNorthEast b = mkLatLng (Qc_of_Z 40) (Qc_of_Z 30)) /\
  extentToBounds (mkExtent NaN (Num (Qc_of_Z 20)) (Num (Qc_of_Z 30)) (Num (Qc_of_Z 40)) None)
  = Throws InvalidLatLng.
Proof.
  split.
  - destruct (extentToBounds_null_iff_some_NaN
                (mkExtent (Num (Qc_of_Z 10)) (Num (Qc_of_Z 20)) (Num (Qc_of_Z 30))
                          (Num (Qc_of_Z 40)) None)) as (_ & H & _).
    destruct (H _ _ _ _ eq_refl eq_refl eq_refl eq_refl) as (b & Hb & _ & _ & Hordered).
    exists b. split; [exact Hb|]. apply Hordered; vm_compute; discriminate.
  - destruct (extentToBounds_null_iff_some_NaN
                (mkExtent NaN (Num (Qc_of_Z 20)) (Num (Qc_of_Z 30)) (Num (Qc_of_Z 40)) None))
      as (_ & _ & _ & H).
    apply H.
    + intros [H1|[H1|[H1|H1]]]; discriminate H1.
    + left. reflexivity.
    + repeat split.
Defined.

(** C4 on fields with an identifier type in third place, and on fields
    whose field of that type has no name. *)
Lemma findIdAttributeFromResponse_order_witness :
  _findIdAttributeFromResponse (mkResponse (Some "") (Some sample_fields) None None)
  = Some "OBJECTID" /\
  _findIdAttributeFromResponse
    (mkResponse None (Some [mkField "fid" "esriFieldTypeInteger";
                            mkField "" "esriFieldTypeOID";
                            mkField "OBJECTID" "esriFieldTypeOID"]) None None)
  = Some "fid".
Proof.
  split.
  - destruct (findIdAttributeFromResponse_order sample_a2g
                (mkResponse (Some "") (Some sample_fields) None None)) as (_ & H & _).
    destruct (H eq_refl) as (_ & Hfields).
    destruct (Hfields sample_fields eq_refl) as (Hb & _).
    apply (Hb 2%nat (mkField "OBJECTID" "esriFieldTypeOID")); [|discriminate].
    split; [reflexivity|]. split; [reflexivity|].
    intros [|[|i]] y Hi Hy; [| |lia]; injection Hy as <-; reflexivity.
  - destruct (findIdAttributeFromResponse_order sample_a2g
                (mkResponse None (Some [mkField "fid" "esriFieldTypeInteger";
                                        mkField "" "esriFieldTypeOID";
                                        mkField "OBJECTID" "esriFieldTypeOID"]) None None))
      as (_ & H & _).
    destruct (H eq_refl) as (_ & Hfields).
    destruct (Hfields _ eq_refl) as (Hb & _).
    destruct (Hb 1%nat (mkField "" "esriFieldTypeOID")) as (_ & Hempty).
    { split; [reflexivity|]. split; [reflexivity|].
      intros [|i] y Hi Hy; [|lia]. injection Hy as <-. reflexivity. }
    destruct (Hempty eq_refl) as (Hc & _).
    apply (Hc 0%nat (mkField "fid" "esriFieldTypeInteger")).
    split; [reflexivity|]. split; [reflexivity|]. intros i y Hi. lia.
Defined.

(** C5 on a Feature that holds a Polygon, on the empty object and on an
    object whose [getLatLng] is a number. *)
Lemma setGeometry_shapes_witness :
  _setGeometry sample_g2a (sample_feature_of sample_polygon) (mkConsole true []) =
  Returns (Some (mkParams (Some (GArcGIS (sample_g2a sample_polygon None)))
                          (Some "esriGeometryPolygon")),
           mkConsole true []) /\
  _setGeometry sample_g2a (VObject ClsObject []) (mkConsole true []) =
  Returns (None, mkConsole true [invalid_geometry_warning]) /\
  _setGeometry sample_g2a (VObject ClsObject [("getLatLng", VNumber (Qc_of_Z 5))])
               (mkConsole true []) =
  Throws TypeError.
Proof.
  destruct (setGeometry_shapes sample_g2a (mkConsole true []))
    as (_ & _ & _ & _ & Hfeature & _ & _ & _ & Hempty & _ & _ & _ & Hcall & _).
  split; [|split].
  - apply (Hfeature (sample_feature_of sample_polygon) sample_polygon "Polygon").
    + eexists. repeat split.
    + reflexivity.
    + eexists _, _. split; reflexivity.
  - apply (Hempty []); reflexivity.
  - apply (Hcall ClsObject [("getLatLng", VNumber (Qc_of_Z 5))] (VNumber (Qc_of_Z 5)));
      first [reflexivity | discriminate].
Defined.

(** C10 on a response with an empty list under [results]. *)
Lemma responseToFeatureCollection_needs_list_witness :
  responseToFeatureCollection sample_a2g (mkResponse None None None (Some [])) None =
  Returns (mkFeatureCollection "FeatureCollection" []) /\
  responseToFeatureCollection sample_a2g (mkResponse None None None None) None =
  Throws TypeError.
Proof.
  destruct (responseToFeatureCollection_needs_list sample_a2g
              (mkResponse None None None (Some [])) None) as (_ & _ & Hempty).
  destruct (responseToFeatureCollection_needs_list sample_a2g
              (mkResponse None None None None) None) as (Hthrows & _).
  split; [apply Hempty; reflexivity|apply Hthrows; split; reflexivity].
Defined.

(** The examples of the specification. *)
Lemma specification_examples :
  _findIdAttributeFromResponse
    (mkResponse None (Some [mkField "OBJECTID" "esriFieldTypeOID";
                            mkField "NAME" "esriFieldTypeString"]) None None)
  = Some "OBJECTID" /\
  _findIdAttributeFromResponse
    (mkResponse None (Some [mkField "NAME" "esriFieldTypeString";
                            mkField "FID" "esriFieldTypeInteger"]) None None)
  = Some "FID" /\
  geojsonTypeToArcGIS (VString "MultiPolygon") = Some "esriGeometryPolygon" /\
  geojsonTypeToArcGIS (VString "GeometryCollection") = None /\
  cleanUrl " http://x " = "http://x/" /\
  extentToBounds (mkExtent NaNString NaNString NaNString NaNString None) = Returns None.
Proof. repeat split. Qed.

(** * Further properties of the code *)

(** ** Feature collections and identifier fields *)

Section MoreFeatureCollectionProperties.

Variable a2g : Feature -> option string -> value.

(** X1: a non-empty [idAttribute] argument overrides everything else: every
    feature is converted with it, whatever the metadata of the response and
    the keys of the feature are. *)
Theorem responseToFeatureCollection_idAttribute_wins (response : Response)
    (idAttribute : option string) (l : list Feature) :
  features_or_results response = Some l ->
  truthy_string idAttribute = true ->
  responseToFeatureCollection a2g response idAttribute =
  Returns (mkFeatureCollection "FeatureCollection"
             ((fun f => a2g f idAttribute) <$> reverse l)).
Proof.
  intros Hl Hid. rewrite (responseToFeatureCollection_Some a2g response idAttribute l Hl).
  rewrite Hid. unfold or_string. rewrite Hid. reflexivity.
Qed.

(** X2: [results] is read only when [features] is absent: a response with a
    list under [features] converts that list whatever [results] holds, so an
    empty [features] array gives an empty collection even beside results. *)
Theorem responseToFeatureCollection_features_hide_results (response : Response)
    (idAttribute : option string) (l : list Feature) :
  features response = Some l ->
  (forall rs,
      responseToFeatureCollection a2g
        (mkResponse (objectIdFieldName response) (fields response) (Some l) rs) idAttribute =
      responseToFeatureCollection a2g response idAttribute) /\
  (l = [] ->
   responseToFeatureCollection a2g response idAttribute =
   Returns (mkFeatureCollection "FeatureCollection" [])).
Proof.
  intros Hl.
  assert (H : features_or_results response = Some l)
    by (unfold features_or_results; rewrite Hl; reflexivity).
  split.
  - intros rs. rewrite (responseToFeatureCollection_Some a2g response idAttribute l H).
    rewrite (responseToFeatureCollection_Some a2g _ idAttribute l) by reflexivity.
    reflexivity.
  - intros ->. rewrite (responseToFeatureCollection_Some a2g response idAttribute [] H).
    reflexivity.
Qed.

End MoreFeatureCollectionProperties.

(** X1 on the sample features. *)
Lemma responseToFeatureCollection_idAttribute_wins_witness :
  responseToFeatureCollection sample_a2g
    (mkResponse (Some "OBJECTID") (Some sample_fields) (Some sample_features) None)
    (Some "NAME") =
  Returns (mkFeatureCollection "FeatureCollection"
             ((fun f => sample_a2g f (Some "NAME")) <$> reverse sample_features)).
Proof.
  exact (responseToFeatureCollection_idAttribute_wins sample_a2g
           (mkResponse (Some "OBJECTID") (Some sample_fields) (Some sample_features) None)
           (Some "NAME") sample_features eq_refl eq_refl).
Defined.

(** X2 on an empty [features] array beside three results. *)
Lemma responseToFeatureCollection_features_hide_results_witness :
  responseToFeatureCollection sample_a2g
    (mkResponse None None (Some []) (Some sample_features)) None =
  Returns (mkFeatureCollection "FeatureCollection" []).
Proof.
  exact (proj2 (responseToFeatureCollection_features_hide_results sample_a2g
                  (mkResponse None None (Some []) (Some sample_features)) None []
                  eq_refl) eq_refl).
Defined.

(** X6: when the first field of type [esriFieldTypeOID] has an empty name,
    the scan of field names is made after all; what it finds is the result,
    and when it finds nothing the result is the empty string, not
    [undefined]. *)
Theorem findIdAttributeFromResponse_unnamed_OID_field (response : Response)
    (fs : list Field) (j : nat) (f : Field) :
  truthy_string (objectIdFieldName response) = false ->
  fields response = Some fs ->
  first_match has_OID_type fs j f -> name f = "" ->
  (forall k g, first_match has_known_name fs k g ->
               _findIdAttributeFromResponse response = Some (name g)) /\
  (Forall (fun g => has_known_name g = false) fs ->
   _findIdAttributeFromResponse response = Some "").
Proof.
  intros Hid Hfs Hfirst Hname. unfold _findIdAttributeFromResponse.
  rewrite Hid, Hfs, (scan_fields_first _ _ j f None Hfirst), Hname. simpl. split.
  - intros k g Hg. apply (scan_fields_first _ _ k g _ Hg).
  - intros Hnone. apply scan_fields_none, Hnone.
Qed.

(** X6 on fields whose identifier field has no name. *)
Lemma findIdAttributeFromResponse_unnamed_OID_field_witness :
  _findIdAttributeFromResponse (mkResponse None (Some sample_fields_unnamed_OID) None None)
  = Some "fid" /\
  _findIdAttributeFromResponse
    (mkResponse None (Some [mkField "" "esriFieldTypeOID"]) None None) = Some "".
Proof.
  split.
  - apply (proj1 (findIdAttributeFromResponse_unnamed_OID_field
                    (mkResponse None (Some sample_fields_unnamed_OID) None None)
                    sample_fields_unnamed_OID 0 (mkField "" "esriFieldTypeOID")
                    eq_refl eq_refl
                    (conj eq_refl (conj eq_refl (fun i y Hi _ => match Nat.nlt_0_r i Hi with end)))
                    eq_refl) 2%nat (mkField "fid" "esriFieldTypeInteger")).
    split; [reflexivity|]. split; [reflexivity|].
    intros [|[|i]] y Hi Hy; [| |lia]; injection Hy as <-; reflexivity.
  - apply (proj2 (findIdAttributeFromResponse_unnamed_OID_field
                    (mkResponse None (Some [mkField "" "esriFieldTypeOID"]) None None)
                    [mkField "" "esriFieldTypeOID"] 0 (mkField "" "esriFieldTypeOID")
                    eq_refl eq_refl
                    (conj eq_refl (conj eq_refl (fun i y Hi _ => match Nat.nlt_0_r i Hi with end)))
                    eq_refl)).
    repeat constructor.
Defined.

(** ** Bounding boxes *)

Lemma Math_min_comm (a b : Qc) : Math_min a b = Math_min b a.
Proof.
  unfold Math_min. destruct (decide (a ≤ b)%Qc) as [Hab|Hab], (decide (b ≤ a)%Qc) as [Hba|Hba];
    try reflexivity.
  - apply Qcle_antisym; assumption.
  - destruct Hab. apply Qclt_le_weak, Qclt_nge, Hba.
Qed.

Lemma Math_max_comm (a b : Qc) : Math_max a b = Math_max b a.
Proof.
  unfold Math_max. destruct (decide (a ≤ b)%Qc) as [Hab|Hab], (decide (b ≤ a)%Qc) as [Hba|Hba];
    try reflexivity.
  - apply Qcle_antisym; assumption.
  - destruct Hab. apply Qclt_le_weak, Qclt_nge, Hba.
Qed.

(** X3: [extentToBounds] does not read [spatialReference], and the way back
    writes 4326: on an extent of four numbers in order,
    [boundsToExtent(extentToBounds(e))] has the coordinates of [e] and the
    spatial reference 4326, whatever the one of [e] was. *)
Theorem boundsToExtent_extentToBounds (x0 y0 x1 y1 : Qc) (sr : option SpatialReference) :
  (x0 ≤ x1)%Qc -> (y0 ≤ y1)%Qc ->
  exists b,
    extentToBounds (mkExtent (Num x0) (Num y0) (Num x1) (Num y1) sr) = Returns (Some b) /\
    boundsToExtent (Instance b) =
    mkExtent (Num x0) (Num y0) (Num x1) (Num y1) (Some {| wkid := 4326 |}).
Proof.
  intros Hx Hy. eexists. split; [reflexivity|].
  unfold boundsToExtent, latLngBounds, extend, getSouthWest, getNorthEast. simpl.
  rewrite !Math_min_ordered, !Math_max_ordered by assumption. reflexivity.
Qed.

(** X3 on an extent with another spatial reference. *)
Lemma boundsToExtent_extentToBounds_witness :
  exists b,
    extentToBounds (mkExtent (Num (Qc_of_Z 10)) (Num (Qc_of_Z 20)) (Num (Qc_of_Z 30))
                             (Num (Qc_of_Z 40)) (Some {| wkid := 3857 |}))
    = Returns (Some b) /\
    boundsToExtent (Instance b) =
    mkExtent (Num (Qc_of_Z 10)) (Num (Qc_of_Z 20)) (Num (Qc_of_Z 30)) (Num (Qc_of_Z 40))
             (Some {| wkid := 4326 |}).
Proof.
  apply (boundsToExtent_extentToBounds (Qc_of_Z 10) (Qc_of_Z 20) (Qc_of_Z 30) (Qc_of_Z 40)
           (Some {| wkid := 3857 |})); vm_compute; discriminate.
Defined.

(** X4: given an array of two corners, [boundsToExtent] does not depend on
    their order, and the extent it returns is in order: [xmin <= xmax] and
    [ymin <= ymax]. *)
Theorem boundsToExtent_corners_in_order (corner1 corner2 : LatLng) :
  boundsToExtent (Corners corner1 corner2) = boundsToExtent (Corners corner2 corner1) /\
  exists x0 y0 x1 y1,
    boundsToExtent (Corners corner1 corner2) =
    mkExtent (Num x0) (Num y0) (Num x1) (Num y1) (Some {| wkid := 4326 |}) /\
    (x0 ≤ x1)%Qc /\ (y0 ≤ y1)%Qc.
Proof.
  split.
  - unfold boundsToExtent, toLatLngBounds, latLngBounds, extend, getSouthWest, getNorthEast.
    simpl.
    rewrite (Math_min_comm (lng corner2)), (Math_min_comm (lat corner2)),
      (Math_max_comm (lng corner2)), (Math_max_comm (lat corner2)). reflexivity.
  - eexists _, _, _, _. split; [reflexivity|]. split; apply Math_min_le_max.
Qed.

(** ** URL normalisation *)

Lemma trimStart_all_white_space (s : string) :
  all_white_space s = true -> trimStart s = "".
Proof.
  induction s as [|c s IH]; simpl; [reflexivity|].
  intros H. apply andb_prop in H as [-> Hs]. exact (IH Hs).
Qed.

(** X5: a url made of white space only (the empty url too) is cleaned to
    the single separator. *)
Theorem cleanUrl_white_space (url : string) :
  all_white_space url = true -> cleanUrl url = "/".
Proof.
  intros H. unfold cleanUrl, trim. rewrite (trimStart_all_white_space url H). reflexivity.
Qed.

(** X5 on blanks, a tab and a line feed. *)
Lemma cleanUrl_white_space_witness :
  cleanUrl (String " " (String (ascii_of_nat 9) (String (ascii_of_nat 10) " "))) = "/".
Proof.
  exact (cleanUrl_white_space
           (String " " (String (ascii_of_nat 9) (String (ascii_of_nat 10) " "))) eq_refl).
Defined.

(** ** Query geometry *)

(** X7: an [L.GeoJSON] layer group without layers is not answered with the
    warning: reading [feature] of its first layer throws. *)
Theorem setGeometry_empty_layer_group (g2a : value -> option string -> value)
    (props : list (string * value)) (console : Console) :
  assoc "getLatLng" props = None ->
  assoc "getLayers" props = Some (VFunction (VArray [])) ->
  _setGeometry g2a (VObject ClsGeoJSON props) console = Throws TypeError.
Proof.
  intros Hll Hlayers. unfold _setGeometry.
  rewrite step_getLatLng_absent by exact Hll.
  cbn -[step_toGeoJSON step_Feature step_confirm get].
  rewrite get_object, Hlayers. reflexivity.
Qed.

(** X7 on a layer group that also has the [toGeoJSON] of every layer. *)
Lemma setGeometry_empty_layer_group_witness :
  _setGeometry sample_g2a
    (VObject ClsGeoJSON
       [("getLayers", VFunction (VArray []));
        ("toGeoJSON", VFunction (VObject ClsObject
                                   [("type", VString "FeatureCollection");
                                    ("features", VArray [])]))])
    (mkConsole true []) = Throws TypeError.
Proof.
  exact (setGeometry_empty_layer_group sample_g2a
           [("getLayers", VFunction (VArray []));
            ("toGeoJSON", VFunction (VObject ClsObject
                                       [("type", VString "FeatureCollection");
                                        ("features", VArray [])]))]
           (mkConsole true []) eq_refl eq_refl).
Defined.

(** ** Attribution *)

Lemma match_here_literal_prefix (t s : list ascii) :
  RegExp.match_here (literal t) s = is_prefix_of t s.
Proof.
  revert s. induction t as [|c t IH]; intros s; [destruct s; reflexivity|].
  destruct s as [|d s]; [reflexivity|]. simpl.
  destruct (Ascii.eqb d c); simpl.
  - rewrite match_here_Seq_Eps. apply IH.
  - apply match_here_Seq_Void.
Qed.

Lemma search_literal_infix (t s : list ascii) :
  RegExp.search (literal t) s = is_infix_of t s.
Proof.
  induction s as [|d s IH]; cbn [RegExp.search is_infix_of];
    rewrite match_here_literal_prefix; [reflexivity|].
  rewrite IH. reflexivity.
Qed.

Lemma String_match_plain (subject text : string) :
  plain_text (list_ascii_of_string text) = true ->
  RegExp.String_match subject text = Returns (contains subject text).
Proof.
  intros Hplain. unfold RegExp.String_match, contains.
  rewrite (compile_plain text Hplain). cbn [mbind completion_bind].
  rewrite search_literal_infix. reflexivity.
Qed.

Lemma concat_attributions_step (wrappedBounds : LatLngBounds) (zoom : Qc)
    (entry : Attribution) (rest : list Attribution) (newAttributions : string) :
  plain_record entry ->
  concat_attributions wrappedBounds zoom (entry :: rest) newAttributions =
  concat_attributions wrappedBounds zoom rest
    (add_visible wrappedBounds zoom newAttributions entry).
Proof.
  intros Hplain. cbn [concat_attributions].
  rewrite (String_match_plain _ _ Hplain). cbn [mbind completion_bind].
  unfold add_visible, visible. rewrite !andb_assoc. reflexivity.
Qed.

Lemma concat_attributions_app (wrappedBounds : LatLngBounds) (zoom : Qc)
    (before rest : list Attribution) (newAttributions : string) :
  Forall plain_record before ->
  concat_attributions wrappedBounds zoom (before ++ rest) newAttributions =
  concat_attributions wrappedBounds zoom rest
    (foldl (add_visible wrappedBounds zoom) newAttributions before).
Proof.
  intros Hplain. revert newAttributions.
  induction Hplain as [|entry before He _ IH]; intros newAttributions; [reflexivity|].
  change ((entry :: before) ++ rest) with (entry :: (before ++ rest)).
  rewrite (concat_attributions_step _ _ _ _ _ He). apply IH.
Qed.

(** X8: for texts without syntax characters the test for duplicates is a
    substring test, and the loop of [_updateMapAttribution] is the fold of
    [add_visible]: a visible record is appended, behind a separator, unless
    its text already occurs in the string built so far. *)
Theorem concat_attributions_plain (wrappedBounds : LatLngBounds) (zoom : Qc)
    (oldAttributions : list Attribution) (newAttributions : string) :
  Forall plain_record oldAttributions ->
  concat_attributions wrappedBounds zoom oldAttributions newAttributions =
  Returns (foldl (add_visible wrappedBounds zoom) newAttributions oldAttributions).
Proof.
  intros Hplain.
  rewrite <- (app_nil_r oldAttributions) at 1.
  rewrite (concat_attributions_app _ _ _ [] _ Hplain). reflexivity.
Qed.

(** X8 on the records of the sample response. *)
Lemma concat_attributions_plain_witness :
  concat_attributions sample_view (Qc_of_Z 5) (records_of sample_attributions) "" =
  Returns (foldl (add_visible sample_view (Qc_of_Z 5)) "" (records_of sample_attributions)).
Proof.
  apply (concat_attributions_plain sample_view (Qc_of_Z 5) (records_of sample_attributions) "").
  repeat constructor.
Defined.

Lemma is_prefix_of_app (t s rest : list ascii) :
  is_prefix_of t s = true -> is_prefix_of t (s ++ rest) = true.
Proof.
  revert s. induction t as [|c t IH]; intros s; [reflexivity|].
  destruct s as [|d s]; [discriminate|]. simpl.
  intros H. apply andb_prop in H as [-> H]. exact (IH s H).
Qed.

Lemma is_infix_of_app_l (t before s : list ascii) :
  is_infix_of t s = true -> is_infix_of t (before ++ s) = true.
Proof.
  intros H. induction before as [|c before IH]; [exact H|].
  simpl. rewrite IH. apply orb_true_r.
Qed.

Lemma is_infix_of_nil (t : list ascii) : is_infix_of t [] = true -> t = [].
Proof. destruct t; [reflexivity|discriminate]. Qed.

Lemma substr_separator (text : string) : substr 2 (", " +:+ text) = text.
Proof. reflexivity. Qed.

(** The update on a map with a control, an element and records of plain
    texts. *)
Lemma updateMapAttribution_plain (attributionWidthOffset : Qc) (wrap : LatLng -> LatLng)
    (map : Map) (control : AttributionControl) (element : Element) (l : list Attribution) :
  attributionControl map = Some control ->
  esri_dynamic_attribution control = Some element ->
  _esriAttributions map = Some l ->
  Forall plain_record l ->
  let wrappedBounds :=
    latLngBounds (wrap (getSouthWest (getBounds map))) (wrap (getNorthEast (getBounds map))) in
  let text := substr 2 (foldl (add_visible wrappedBounds (getZoom map)) "" l) in
  _updateMapAttribution attributionWidthOffset wrap map =
  (mkMap (getBounds map) (getZoom map) (getSize_x map)
         (Some (mkControl (Some (mkElement text
                                   (Some (calcAttributionWidth attributionWidthOffset map))))))
         (Some l) (fired map ++ [("attributionupdated", text)]),
   Returns ()).
Proof.
  intros Hcontrol Helement Hl Hplain wrappedBounds text.
  pose proof (concat_attributions_app wrappedBounds (getZoom map) l [] "" Hplain) as Hfold.
  rewrite app_nil_r in Hfold.
  unfold _updateMapAttribution. rewrite Hcontrol, Hl. fold wrappedBounds.
  rewrite Hfold. cbn [concat_attributions]. rewrite Helement. reflexivity.
Qed.

(** X9: the test is on substrings, not on whole texts: of two visible
    records, the second is dropped as soon as its text occurs inside the
    text of the first, and the event that is fired carries the text of the
    first alone. *)
Theorem updateMapAttribution_drops_contained_text (attributionWidthOffset : Qc)
    (wrap : LatLng -> LatLng) (map : Map) (control : AttributionControl) (element : Element)
    (a1 a2 : Attribution) :
  let wrappedBounds :=
    latLngBounds (wrap (getSouthWest (getBounds map))) (wrap (getNorthEast (getBounds map))) in
  attributionControl map = Some control ->
  esri_dynamic_attribution control = Some element ->
  _esriAttributions map = Some [a1; a2] ->
  plain_record a1 -> plain_record a2 ->
  visible wrappedBounds (getZoom map) a1 = true ->
  attribution a1 <> "" ->
  contains (attribution a1) (attribution a2) = true ->
  let result := _updateMapAttribution attributionWidthOffset wrap map in
  result.2 = Returns () /\
  fired result.1 = fired map ++ [("attributionupdated", attribution a1)].
Proof.
  intros wrappedBounds Hcontrol Helement Hl Hp1 Hp2 Hv1 Hne Hin.
  assert (Hfold : foldl (add_visible wrappedBounds (getZoom map)) "" [a1; a2]
                  = ", " +:+ attribution a1).
  { cbn [foldl]. unfold add_visible at 2. rewrite Hv1.
    replace (contains "" (attribution a1)) with false.
    2:{ symmetry. apply not_true_is_false. intros H. apply Hne.
        unfold contains in H. apply is_infix_of_nil in H.
        destruct (attribution a1); [reflexivity|discriminate]. }
    cbn [negb andb]. change ("" +:+ ", " +:+ attribution a1) with (", " +:+ attribution a1).
    unfold add_visible.
    replace (contains (", " +:+ attribution a1) (attribution a2)) with true; [reflexivity|].
    symmetry. unfold contains. rewrite list_ascii_of_string_app.
    apply is_infix_of_app_l, Hin. }
  cbv zeta.
  rewrite (updateMapAttribution_plain attributionWidthOffset wrap map control element [a1; a2]
             Hcontrol Helement Hl ltac:(repeat constructor; assumption)).
  fold wrappedBounds. rewrite Hfold. repeat split.
Qed.

(** X9 on "Esri Japan" followed by "Esri". *)
Lemma updateMapAttribution_drops_contained_text_witness :
  let map :=
    sample_map_with
      [mkAttribution "Esri Japan" (Qc_of_Z 50) sample_world (Qc_of_Z 0) (Qc_of_Z 20);
       mkAttribution "Esri" (Qc_of_Z 10) sample_world (Qc_of_Z 0) (Qc_of_Z 20)] in
  (_updateMapAttribution (Qc_of_Z 55) id map).2 = Returns () /\
  fired (_updateMapAttribution (Qc_of_Z 55) id map).1 = [("attributionupdated", "Esri Japan")].
Proof.
  apply (updateMapAttribution_drops_contained_text (Qc_of_Z 55) id
           (sample_map_with
              [mkAttribution "Esri Japan" (Qc_of_Z 50) sample_world (Qc_of_Z 0) (Qc_of_Z 20);
               mkAttribution "Esri" (Qc_of_Z 10) sample_world (Qc_of_Z 0) (Qc_of_Z 20)])
           (mkControl (Some (mkElement "" None))) (mkElement "" None)
           (mkAttribution "Esri Japan" (Qc_of_Z 50) sample_world (Qc_of_Z 0) (Qc_of_Z 20))
           (mkAttribution "Esri" (Qc_of_Z 10) sample_world (Qc_of_Z 0) (Qc_of_Z 20)));
    first [reflexivity | discriminate].
Defined.

(** X10: the update never touches the view nor [_esriAttributions], and it
    fires one event [attributionupdated] at most.  On a map without an
    attribution control or without [_esriAttributions] it does nothing and
    returns; on any other map it fires exactly one event when it returns. *)
Theorem updateMapAttribution_frame (attributionWidthOffset : Qc) (wrap : LatLng -> LatLng)
    (map : Map) :
  let result := _updateMapAttribution attributionWidthOffset wrap map in
  getBounds result.1 = getBounds map /\
  getZoom result.1 = getZoom map /\
  getSize_x result.1 = getSize_x map /\
  _esriAttributions result.1 = _esriAttributions map /\
  (fired result.1 = fired map \/
   exists text, fired result.1 = fired map ++ [("attributionupdated", text)]) /\
  (attributionControl map = None \/ _esriAttributions map = None ->
   result = (map, Returns ())) /\
  (result.2 = Returns () ->
   attributionControl map <> None -> _esriAttributions map <> None ->
   exists text, fired result.1 = fired map ++ [("attributionupdated", text)]).
Proof.
  unfold _updateMapAttribution.
  destruct (attributionControl map) as [control|]; [|simpl; tauto].
  destruct (_esriAttributions map) as [l|] eqn:Hl; [|simpl; tauto].
  assert (Hguard : ~ (Some control = None \/ Some l = @None (list Attribution)))
    by (intros [H|H]; discriminate).
  destruct (concat_attributions _ _ l "") as [text|e|].
  - destruct (esri_dynamic_attribution control) as [element|]; simpl.
    + repeat split; try tauto; eauto.
    + rewrite Hl. repeat split; try tauto. discriminate.
  - simpl. rewrite Hl. repeat split; try tauto. discriminate.
  - simpl. rewrite Hl. repeat split; try tauto. discriminate.
Qed.

(** X10 on the sample map: the call returns and fires its one event. *)
Lemma updateMapAttribution_frame_witness :
  exists text,
    fired (_updateMapAttribution (Qc_of_Z 55) id (sample_map "Esri")).1 =
    [("attributionupdated", text)].
Proof.
  destruct (updateMapAttribution_frame (Qc_of_Z 55) id (sample_map "Esri"))
    as (_ & _ & _ & _ & _ & _ & H).
  apply H; [reflexivity|discriminate|discriminate].
Defined.



Lemma insert_by_score_Permutation (a : Attribution) (l : list Attribution) :
  insert_by_score a l ≡ₚ a :: l.
Proof.
  induction l as [|b l IH]; simpl; [reflexivity|].
  destruct (bool_decide (score b < score a)%Qc); [reflexivity|].
  rewrite IH. apply Permutation_swap.
Qed.

Lemma insert_by_score_sorted (a : Attribution) (l : list Attribution) :
  StronglySorted score_order l -> StronglySorted score_order (insert_by_score a l).
Proof.
  induction 1 as [|b l Hsorted IH Hb]; simpl.
  - repeat constructor.
  - destruct (bool_decide (score b < score a)%Qc) eqn:Hlt.
    + apply bool_decide_eq_true_1 in Hlt. constructor.
      * constructor; assumption.
      * constructor; [apply Qclt_le_weak, Hlt|].
        eapply Forall_impl; [exact Hb|]. intros x Hx. unfold score_order in *.
        eapply Qcle_trans; [exact Hx|apply Qclt_le_weak, Hlt].
    + apply bool_decide_eq_false_1 in Hlt. constructor; [exact IH|].
      rewrite insert_by_score_Permutation. constructor; [|exact Hb].
      unfold score_order. apply Qcle_ngt, Hlt.
Qed.

Lemma sort_by_score_spec (l : list Attribution) :
  sort_by_score l ≡ₚ l /\ StronglySorted score_order (sort_by_score l).
Proof.
  unfold sort_by_score.
  assert (H : forall acc, StronglySorted score_order acc ->
                foldl (fun sorted a => insert_by_score a sorted) acc l ≡ₚ acc ++ l /\
                StronglySorted score_order
                  (foldl (fun sorted a => insert_by_score a sorted) acc l)).
  { induction l as [|a l IH]; intros acc Hacc; simpl.
    - rewrite app_nil_r. split; [reflexivity|exact Hacc].
    - destruct (IH (insert_by_score a acc) (insert_by_score_sorted a acc Hacc)) as [Hp Hs].
      split; [|exact Hs]. rewrite Hp, insert_by_score_Permutation.
      rewrite (Permutation_middle acc l a). reflexivity. }
  apply (H []). constructor.
Qed.

Lemma updateMapAttribution_frame_attributions (attributionWidthOffset : Qc)
    (wrap : LatLng -> LatLng) (map : Map) :
  _esriAttributions (_updateMapAttribution attributionWidthOffset wrap map).1 =
  _esriAttributions map.
Proof.
  unfold _updateMapAttribution.
  destruct (attributionControl map) as [control|]; [|reflexivity].
  destruct (_esriAttributions map) as [l|] eqn:Hl; [|simpl; exact Hl].
  destruct (concat_attributions _ _ l "") as [text|e|]; [|simpl; exact Hl..].
  destruct (esri_dynamic_attribution control) as [element|]; [|simpl; exact Hl].
  reflexivity.
Qed.

(** X12: when the lookup succeeds, the list kept on the map is replaced,
    not extended: whatever was stored before, it now holds one record for
    every coverage area of the response and nothing else, ordered by
    descending score; this holds also when the update that follows throws. *)
Theorem getAttributionData_stores_sorted_records (attributionWidthOffset : Qc)
    (wrap : LatLng -> LatLng) (jsonp : string -> option LookupError * option AttributionData)
    (url : string) (map : Map) (attributions : AttributionData) :
  jsonp url = (None, Some attributions) ->
  exists l,
    _esriAttributions (_getAttributionData attributionWidthOffset wrap jsonp url map).1 = Some l /\
    l ≡ₚ records_of attributions /\
    StronglySorted score_order l /\
    length l = sum_list (List.map (fun c => length (coverageAreas c)) (contributors attributions)).
Proof.
  intros Hlookup. unfold _getAttributionData. rewrite Hlookup.
  unfold attributions_callback.
  fold (records_of attributions).
  exists (sort_by_score (records_of attributions)).
  destruct (sort_by_score_spec (records_of attributions)) as [Hp Hs].
  split; [|split; [exact Hp|split; [exact Hs|]]].
  - rewrite updateMapAttribution_frame_attributions. reflexivity.
  - rewrite Hp. unfold records_of. clear.
    induction (contributors attributions) as [|c cs IH]; [reflexivity|].
    simpl. rewrite length_app, length_map, IH. reflexivity.
Qed.

(** X12 on the sample response, on a map that held two other records. *)
Lemma getAttributionData_stores_sorted_records_witness :
  exists l,
    _esriAttributions
      (_getAttributionData (Qc_of_Z 55) id (fun _ => (None, Some sample_attributions))
         "https://static.arcgis.com/attribution/World_Topo_Map" (sample_map "DeLorme")).1
    = Some l /\
    l ≡ₚ records_of sample_attributions /\
    StronglySorted score_order l /\
    length l = 3%nat.
Proof.
  exact (getAttributionData_stores_sorted_records (Qc_of_Z 55) id
           (fun _ => (None, Some sample_attributions))
           "https://static.arcgis.com/attribution/World_Topo_Map" (sample_map "DeLorme")
           sample_attributions eq_refl).
Defined.

(** ** Patterns and their languages *)

Lemma nullable_matches (r : RegExp.regex) : RegExp.nullable r = true <-> matches r [].
Proof.
  induction r as [| |c| |r1 IH1 r2 IH2|r1 IH1 r2 IH2|r IH]; simpl.
  - split; [discriminate|inversion 1].
  - split; [constructor|reflexivity].
  - split; [discriminate|inversion 1].
  - split; [discriminate|inversion 1].
  - rewrite andb_true_iff, IH1, IH2. split.
    + intros [H1 H2]. exact (matches_Seq _ _ [] [] H1 H2).
    + intros H. inversion H as [| | |? ? s1 s2 H1 H2 [Hr1 Hr2] Heq| | | |].
      apply app_eq_nil in Heq as [-> ->]. split; assumption.
  - rewrite orb_true_iff, IH1, IH2. split.
    + intros [H|H]; [apply matches_Alt_l|apply matches_Alt_r]; exact H.
    + inversion 1; subst; auto.
  - split; [constructor|reflexivity].
Qed.

Lemma matches_Star_cons (r : RegExp.regex) (c : ascii) (s : list ascii) :
  matches (RegExp.Star r) (c :: s) ->
  exists s1 s2, s = s1 ++ s2 /\ matches r (c :: s1) /\ matches (RegExp.Star r) s2.
Proof.
  intros H. remember (RegExp.Star r) as r' eqn:Hr. remember (c :: s) as cs eqn:Hcs.
  revert c s Hcs. induction H as [| | | | | | |r0 s1 s2 H1 _ H2 IH2]; intros c' s' Hcs;
    try discriminate.
  injection Hr as ->. destruct s1 as [|d s1].
  - simpl in Hcs. exact (IH2 eq_refl c' s' Hcs).
  - injection Hcs as <- <-. exists s1, s2. auto.
Qed.

Lemma deriv_matches (r : RegExp.regex) (c : ascii) (s : list ascii) :
  matches (RegExp.deriv c r) s <-> matches r (c :: s).
Proof.
  revert s. induction r as [| |d| |r1 IH1 r2 IH2|r1 IH1 r2 IH2|r IH]; intros s; simpl.
  - split; inversion 1.
  - split; inversion 1.
  - destruct (Ascii.eqb_spec c d) as [->|Hne]; split; inversion 1; subst;
      try constructor; congruence.
  - destruct (RegExp.is_line_terminator c) eqn:Hc; split; inversion 1; subst;
      try (constructor; assumption); congruence.
  - assert (Hseq : matches (RegExp.Seq (RegExp.deriv c r1) r2) s <->
                   exists s1 s2, s = s1 ++ s2 /\ matches r1 (c :: s1) /\ matches r2 s2).
    { split.
      - inversion 1 as [| | |? ? s1 s2 H1 H2| | | |]; subst.
        exists s1, s2. rewrite <- IH1. auto.
      - intros (s1 & s2 & -> & H1 & H2). constructor; [apply IH1, H1|exact H2]. }
    assert (Hgoal : matches (RegExp.Seq r1 r2) (c :: s) <->
                    (exists s1 s2, s = s1 ++ s2 /\ matches r1 (c :: s1) /\ matches r2 s2) \/
                    (matches r1 [] /\ matches r2 (c :: s))).
    { split.
      - intros H. inversion H as [| | |? ? s1 s2 H1 H2 [Hr1 Hr2] Heq| | | |].
        destruct s1 as [|d s1].
        + right. split; [exact H1|exact H2].
        + simpl in Heq. injection Heq as Hd Hs. subst d s. left. eauto.
      - intros [(s1 & s2 & -> & H1 & H2)|[H1 H2]].
        + exact (matches_Seq _ _ (c :: s1) s2 H1 H2).
        + exact (matches_Seq _ _ [] (c :: s) H1 H2). }
    rewrite Hgoal. destruct (RegExp.nullable r1) eqn:Hn.
    + apply nullable_matches in Hn. split.
      * inversion 1; subst; [left; apply Hseq; assumption|right; rewrite <- IH2; auto].
      * intros [H|[_ H]]; [apply matches_Alt_l, Hseq, H|apply matches_Alt_r, IH2, H].
    + rewrite Hseq. split; [auto|]. intros [H|[H _]]; [exact H|].
      apply nullable_matches in H. congruence.
  - split.
    + inversion 1; subst; [apply matches_Alt_l, IH1|apply matches_Alt_r, IH2]; assumption.
    + inversion 1; subst; [apply matches_Alt_l, IH1|apply matches_Alt_r, IH2]; assumption.
  - split.
    + inversion 1 as [| | |? ? s1 s2 H1 H2| | | |]; subst.
      exact (matches_Star_app _ (c :: s1) s2 (proj1 (IH s1) H1) H2).
    + intros H. apply matches_Star_cons in H as (s1 & s2 & -> & H1 & H2).
      constructor; [apply IH, H1|exact H2].
Qed.

(** The matcher finds the prefixes that are in the language. *)
Lemma match_here_matches (r : RegExp.regex) (s : list ascii) :
  RegExp.match_here r s = true <-> exists p rest, s = p ++ rest /\ matches r p.
Proof.
  revert r. induction s as [|c s IH]; intros r; simpl.
  - rewrite orb_false_r, nullable_matches. split.
    + intros H. exists [], []. auto.
    + intros (p & rest & Heq & H). symmetry in Heq. apply app_eq_nil in Heq as [-> _].
      exact H.
  - rewrite orb_true_iff, nullable_matches, IH. split.
    + intros [H|(p & rest & -> & H)].
      * exists [], (c :: s). auto.
      * exists (c :: p), rest. split; [reflexivity|apply deriv_matches, H].
    + intros ([|d p] & rest & Heq & H); [left; exact H|].
      injection Heq as <- ->. right. exists p, rest. split; [reflexivity|].
      apply deriv_matches, H.
Qed.

Lemma matches_Star_Dot (s : list ascii) : matches (RegExp.Star RegExp.Dot) s <-> one_line s.
Proof.
  split.
  - intros H. remember (RegExp.Star RegExp.Dot) as r eqn:Hr.
    induction H as [| | | | | | |r0 s1 s2 H1 _ _ IH2]; try discriminate; [constructor|].
    injection Hr as ->. inversion H1; subst. constructor; [assumption|apply IH2; reflexivity].
  - induction 1 as [|c s Hc _ IH]; [constructor|].
    exact (matches_Star_app _ [c] s (matches_Dot c Hc) IH).
Qed.

Lemma matches_literal_then (t : list ascii) (r : RegExp.regex) (s : list ascii) :
  matches (literal_then t r) s <-> exists rest, s = t ++ rest /\ matches r rest.
Proof.
  revert s. induction t as [|c t IH]; intros s; simpl.
  - split; [eauto|]. intros (rest & -> & H). exact H.
  - split.
    + inversion 1 as [| | |? ? s1 s2 H1 H2| | | |]; subst. inversion H1; subst.
      apply IH in H2 as (rest & -> & H2). eauto.
    + intros (rest & -> & H). apply (matches_Seq _ _ [c] (t ++ rest)); [constructor|].
      apply IH. eauto.
Qed.

Lemma matches_Eps_nil (s : list ascii) : matches RegExp.Eps s <-> s = [].
Proof. split; [inversion 1; reflexivity|intros ->; constructor]. Qed.

(** A prefix in the language of [.*t] followed by [r]. *)
Lemma matches_anywhere_then (t : list ascii) (r : RegExp.regex) (s : list ascii) :
  matches (RegExp.Seq (RegExp.Star RegExp.Dot) (literal_then t r)) s <->
  exists before rest, s = before ++ t ++ rest /\ one_line before /\ matches r rest.
Proof.
  split.
  - inversion 1 as [| | |? ? s1 s2 H1 H2| | | |]; subst.
    apply matches_Star_Dot in H1. apply matches_literal_then in H2 as (rest & -> & H2).
    eauto.
  - intros (before & rest & -> & Hb & Hr). constructor; [apply matches_Star_Dot, Hb|].
    apply matches_literal_then. eauto.
Qed.

(** ** Service classification *)

(** The two patterns of [isArcgisOnline], as compiled. *)
Lemma isArcgisOnline_patterns :
  fold_case (pattern_of ".*utility\.arcgis\.com") =
  RegExp.Seq (RegExp.Star RegExp.Dot)
             (literal_then (list_ascii_of_string "UTILITY.ARCGIS.COM") RegExp.Eps) /\
  fold_case (pattern_of ".*\.arcgis\.com.*FeatureServer") =
  RegExp.Seq (RegExp.Star RegExp.Dot)
    (literal_then (list_ascii_of_string ".ARCGIS.COM")
       (RegExp.Seq (RegExp.Star RegExp.Dot)
          (literal_then (list_ascii_of_string "FEATURESERVER") RegExp.Eps))).
Proof. split; vm_compute; reflexivity. Qed.

Lemma matches_at_start_utility (url : string) :
  matches_at_start_i ".*utility\.arcgis\.com" url = true <->
  has_on_first_line (folded url) "UTILITY.ARCGIS.COM".
Proof.
  unfold matches_at_start_i, has_on_first_line. fold (folded url).
  rewrite (proj1 isArcgisOnline_patterns), match_here_matches. split.
  - intros (p & rest & -> & H). apply matches_anywhere_then in H as (b & e & -> & Hb & He).
    apply matches_Eps_nil in He as ->. exists b, rest. rewrite app_nil_r, <- app_assoc.
    auto.
  - intros (b & rest & -> & Hb). exists (b ++ list_ascii_of_string "UTILITY.ARCGIS.COM"), rest.
    split; [rewrite <- app_assoc; reflexivity|].
    apply matches_anywhere_then. exists b, []. rewrite app_nil_r.
    split; [reflexivity|]. split; [exact Hb|constructor].
Qed.

Lemma matches_at_start_FeatureServer (url : string) :
  matches_at_start_i ".*\.arcgis\.com.*FeatureServer" url = true <->
  exists before between rest,
    folded url = before ++ list_ascii_of_string ".ARCGIS.COM" ++ between
                 ++ list_ascii_of_string "FEATURESERVER" ++ rest /\
    one_line before /\ one_line between.
Proof.
  unfold matches_at_start_i. fold (folded url).
  rewrite (proj2 isArcgisOnline_patterns), match_here_matches. split.
  - intros (p & rest & -> & H). apply matches_anywhere_then in H as (b & e & -> & Hb & He).
    apply matches_anywhere_then in He as (m & e' & -> & Hm & He').
    apply matches_Eps_nil in He' as ->. exists b, m, rest.
    rewrite app_nil_r, <- !app_assoc. auto.
  - intros (b & m & rest & -> & Hb & Hm).
    exists (b ++ list_ascii_of_string ".ARCGIS.COM" ++ m
              ++ list_ascii_of_string "FEATURESERVER"), rest.
    split; [rewrite <- !app_assoc; reflexivity|].
    apply matches_anywhere_then. eexists b, _. split; [reflexivity|]. split; [exact Hb|].
    apply matches_anywhere_then. exists m, []. rewrite app_nil_r.
    split; [reflexivity|]. split; [exact Hm|constructor].
Qed.

(** X13: [isArcgisOnline] is true exactly for the urls that, letter case
    apart, have [.arcgis.com] and later [FeatureServer] on their first line,
    and do not have [utility.arcgis.com] on it. *)
Theorem isArcgisOnline_spec (url : string) :
  isArcgisOnline url = true <->
  (exists before between rest,
      folded url = before ++ list_ascii_of_string ".ARCGIS.COM" ++ between
                   ++ list_ascii_of_string "FEATURESERVER" ++ rest /\
      one_line before /\ one_line between) /\
  ~ has_on_first_line (folded url) "UTILITY.ARCGIS.COM".
Proof.
  unfold isArcgisOnline.
  rewrite andb_true_iff, negb_true_iff, <- matches_at_start_FeatureServer,
    <- matches_at_start_utility.
  destruct (matches_at_start_i ".*utility\.arcgis\.com" url); split.
  - intros [? _]. discriminate.
  - intros [_ H]. destruct (H eq_refl).
  - intros [_ H]. split; [exact H|discriminate].
  - intros [H _]. auto.
Qed.

(** X14: a url that has [utility.arcgis.com] on its first line, in any letter
    case, is never classified as hosted, whatever else it holds. *)
Theorem isArcgisOnline_utility (url : string) :
  has_on_first_line (folded url) "UTILITY.ARCGIS.COM" -> isArcgisOnline url = false.
Proof.
  intros H. apply matches_at_start_utility in H. unfold isArcgisOnline. rewrite H.
  reflexivity.
Qed.

(** X14 on a proxied service. *)
Lemma isArcgisOnline_utility_witness :
  isArcgisOnline "https://Utility.ArcGIS.com/usrsvcs/servers/abc/rest/services/x/FeatureServer/0"
  = false.
Proof.
  apply isArcgisOnline_utility.
  exists (list_ascii_of_string "HTTPS://"),
    (list_ascii_of_string "/USRSVCS/SERVERS/ABC/REST/SERVICES/X/FEATURESERVER/0").
  split; [reflexivity|]. repeat constructor.
Defined.

(** The examples of the specification for [isArcgisOnline]. *)
Lemma isArcgisOnline_examples :
  isArcgisOnline "https://services.arcgis.com/abc/arcgis/rest/services/x/FeatureServer" = true /\
  isArcgisOnline "https://utility.arcgis.com/usrsvcs/servers/abc/rest/services/x/FeatureServer"
  = false /\
  isArcgisOnline "https://services.arcgis.com/abc/arcgis/rest/services/x/MapServer" = false /\
  isArcgisOnline "https://example.com/arcgis/rest/services/x/FeatureServer" = false /\
  isArcgisOnline "HTTPS://SERVICES.ARCGIS.COM/ABC/ARCGIS/REST/SERVICES/X/featureserver/0" = true.
Proof. vm_compute. repeat split. Qed.

(** ** Style sheets and listeners *)

Lemma setEsriAttribution_noop (attributionWidthOffset : Qc) (page : Page) :
  attributionControl (page_map page) = None \/ _esriAttributionAdded (control page) = true ->
  setEsriAttribution attributionWidthOffset page = page.
Proof.
  unfold setEsriAttribution. intros [H|H]; rewrite H; [reflexivity|].
  destruct (attributionControl (page_map page)); reflexivity.
Qed.

Lemma setEsriAttribution_added (attributionWidthOffset : Qc) (page : Page) :
  attributionControl (page_map page) <> None ->
  _esriAttributionAdded (control (setEsriAttribution attributionWidthOffset page)) = true /\
  page_map (setEsriAttribution attributionWidthOffset page) = page_map page.
Proof.
  unfold setEsriAttribution. destruct (attributionControl (page_map page)); [|congruence].
  intros _. destruct (_esriAttributionAdded (control page)) eqn:Hadded; simpl; auto.
Qed.

(** X15: the styles, classes and listeners are added once: a second call
    of [setEsriAttribution] on the same map changes nothing. *)
Theorem setEsriAttribution_idempotent (attributionWidthOffset : Qc) (page : Page) :
  setEsriAttribution attributionWidthOffset
    (setEsriAttribution attributionWidthOffset page) =
  setEsriAttribution attributionWidthOffset page.
Proof.
  destruct (attributionControl (page_map page)) as [c|] eqn:Hc.
  - apply setEsriAttribution_noop. right. apply setEsriAttribution_added. congruence.
  - rewrite (setEsriAttribution_noop _ page) by (left; exact Hc).
    apply setEsriAttribution_noop. left. exact Hc.
Qed.

Lemma filter_comm {A} (P Q : A -> bool) (l : list A) :
  List.filter P (List.filter Q l) = List.filter Q (List.filter P l).
Proof.
  induction l as [|a l IH]; [reflexivity|]. simpl.
  destruct (P a) eqn:HP, (Q a) eqn:HQ; simpl; rewrite ?HP, ?HQ, IH; reflexivity.
Qed.

Lemma filter_all {A} (P : A -> bool) (l : list A) :
  Forall (fun a => P a = true) l -> List.filter P l = l.
Proof. induction 1 as [|a l Ha _ IH]; simpl; [reflexivity|]. rewrite Ha, IH. reflexivity. Qed.

Lemma is_not_true (id : nat) (node : Node) : is_not id node = true <-> node_id node <> id.
Proof.
  unfold is_not. rewrite negb_true_iff. destruct (Nat.eqb_spec (node_id node) id); split;
    congruence.
Qed.

Lemma filter_is_not_fresh (id : nat) (l : list Node) :
  id ∉ node_id <$> l -> List.filter (is_not id) l = l.
Proof.
  intros H. apply filter_all, Forall_forall. intros node Hin. apply is_not_true.
  intros <-. apply H, list_elem_of_fmap. eauto.
Qed.

Lemma filter_is_not_delete (l : list Node) (i : nat) (node : Node) :
  NoDup (node_id <$> l) -> l !! i = Some node ->
  List.filter (is_not (node_id node)) l = delete i l.
Proof.
  revert i. induction l as [|a l IH]; intros i Hnodup Hi; [discriminate|].
  rewrite fmap_cons in Hnodup. apply NoDup_cons in Hnodup as [Ha Hl].
  destruct i as [|i]; simpl in *.
  - injection Hi as ->. unfold is_not at 1. rewrite Nat.eqb_refl. simpl.
    apply filter_is_not_fresh, Ha.
  - replace (is_not (node_id node) a) with true.
    + rewrite (IH i Hl Hi). reflexivity.
    + symmetry. apply is_not_true. intros Heq. apply Ha. rewrite Heq.
      apply list_elem_of_fmap. exists node. split; [reflexivity|].
      apply list_elem_of_lookup. eauto.
Qed.

Lemma NoDup_filter_ids (P : Node -> bool) (l : list Node) :
  NoDup (node_id <$> l) -> NoDup (node_id <$> List.filter P l).
Proof.
  induction l as [|a l IH]; simpl; [trivial|].
  rewrite NoDup_cons. intros [Ha Hl]. destruct (P a); [|exact (IH Hl)].
  rewrite fmap_cons. apply NoDup_cons. split; [|exact (IH Hl)].
  intros Hin. apply Ha. apply list_elem_of_fmap in Hin as (node & -> & Hnode).
  apply list_elem_of_fmap. exists node. split; [reflexivity|].
  apply list_elem_of_In. apply list_elem_of_In, filter_In in Hnode as [Hnode _]. exact Hnode.
Qed.

Lemma all_nodes_remove (id : nat) (doc : Document) :
  all_nodes (node_remove id doc) = List.filter (is_not id) (all_nodes doc).
Proof. unfold all_nodes, node_remove. simpl. symmetry. apply List.filter_app. Qed.

Lemma jsonp_scripts_remove (id : nat) (doc : Document) :
  jsonp_scripts (node_remove id doc) = List.filter (is_not id) (jsonp_scripts doc).
Proof.
  unfold jsonp_scripts, getElementsByClassName. rewrite all_nodes_remove. apply filter_comm.
Qed.

(** Removing a script leaves the other nodes where they are. *)
Lemma other_nodes_remove (node : Node) (doc : Document) :
  NoDup (node_id <$> all_nodes doc) -> node ∈ jsonp_scripts doc ->
  other_nodes (node_remove (node_id node) doc) = other_nodes doc.
Proof.
  intros Hnodup Hnode. unfold other_nodes. rewrite all_nodes_remove, filter_comm.
  apply filter_all, Forall_forall. intros other Hother. apply is_not_true. intros Heq.
  apply list_elem_of_In, filter_In in Hother as [Hin Hclass].
  apply list_elem_of_In, filter_In in Hnode as [Hin' Hclass'].
  apply list_elem_of_In, list_elem_of_lookup in Hin as [i Hi].
  apply list_elem_of_In, list_elem_of_lookup in Hin' as [j Hj].
  assert (i = j).
  { apply (NoDup_lookup _ i j (node_id node) Hnodup);
      rewrite list_lookup_fmap; [rewrite Hi, <- Heq|rewrite Hj]; reflexivity. }
  subst j. rewrite Hi in Hj. injection Hj as ->. rewrite Hclass' in Hclass. discriminate.
Qed.

Lemma odd_positions_delete {A} (l : list A) (i : nat) :
  (i < length l)%nat ->
  take (S i) (delete i l) ++ odd_positions (drop (S i) (delete i l)) =
  take i l ++ odd_positions (drop i l).
Proof.
  revert i. induction l as [|a l IH]; intros i Hi; [simpl in Hi; lia|].
  destruct i as [|i].
  - simpl. destruct l as [|b l]; [reflexivity|]. simpl. rewrite drop_0. reflexivity.
  - simpl in Hi. change (a :: (take (S i) (delete i l) ++ odd_positions (drop (S i) (delete i l)))
                         = a :: (take i l ++ odd_positions (drop i l))).
    rewrite IH by lia. reflexivity.
Qed.

Lemma odd_positions_length {A} (l : list A) :
  length (odd_positions l) = Nat.div2 (length l).
Proof.
  assert (H : forall l : list A,
             length (odd_positions l) = Nat.div2 (length l) /\
             forall a, length (odd_positions (a :: l)) = Nat.div2 (length (a :: l))).
  { clear l. induction l as [|b l [IH1 IH2]]; [split; reflexivity|].
    split; [apply IH2|]. intros a. simpl. rewrite IH1. reflexivity. }
  apply H.
Qed.

Section StyleProperties.

Variable attributionWidthOffset : Qc.

(** The loop over the live collection, from index [i] on. *)
Lemma remove_scripts_spec (fuel i : nat) (doc : Document) :
  NoDup (node_id <$> all_nodes doc) -> element_remove doc = true ->
  (length (jsonp_scripts doc) - i < fuel)%nat ->
  exists doc',
    remove_scripts fuel i doc = (doc', Returns ()) /\
    jsonp_scripts doc' = take i (jsonp_scripts doc) ++ odd_positions (drop i (jsonp_scripts doc)) /\
    other_nodes doc' = other_nodes doc.
Proof.
  revert i doc. induction fuel as [|fuel IH]; intros i doc Hnodup Hremove Hfuel; [lia|].
  cbn [remove_scripts]. fold (jsonp_scripts doc).
  destruct (Nat.ltb_spec i (length (jsonp_scripts doc))) as [Hlt|Hge].
  - destruct (lookup_lt_is_Some_2 (jsonp_scripts doc) i Hlt) as [node Hnode].
    rewrite Hnode, Hremove.
    assert (Hscripts : jsonp_scripts (node_remove (node_id node) doc) =
                       delete i (jsonp_scripts doc)).
    { rewrite jsonp_scripts_remove. apply filter_is_not_delete; [|exact Hnode].
      apply NoDup_filter_ids, Hnodup. }
    destruct (IH (S i) (node_remove (node_id node) doc)) as (doc' & Hrun & Hleft & Hother).
    + rewrite all_nodes_remove. apply NoDup_filter_ids, Hnodup.
    + exact Hremove.
    + rewrite Hscripts, length_delete by eauto. lia.
    + exists doc'. split; [exact Hrun|]. split.
      * rewrite Hleft, Hscripts. apply odd_positions_delete, Hlt.
      * rewrite Hother. apply other_nodes_remove; [exact Hnodup|].
        apply list_elem_of_lookup. eauto.
  - exists doc. split; [reflexivity|]. split; [|reflexivity].
    rewrite take_ge, drop_ge, app_nil_r by lia. reflexivity.
Qed.

Lemma other_nodes_remove_id (id : nat) (doc : Document) :
  other_nodes (node_remove id doc) = List.filter (is_not id) (other_nodes doc).
Proof. unfold other_nodes. rewrite all_nodes_remove. apply filter_comm. Qed.

(** X16: the listener of [unload] takes the two styles out of the document,
    but not all the scripts of the lookups.  The collection it walks through
    is live and shrinks under the loop, so every second script is skipped:
    the scripts at the odd positions stay in the document, half of them
    (rounded down).  No other node is touched. *)
Theorem on_unload_leaves_every_second_script (hoverAttributionStyle attributionStyle : nat)
    (doc : Document) :
  NoDup (node_id <$> all_nodes doc) ->
  element_remove doc = true ->
  hoverAttributionStyle ∉ node_id <$> jsonp_scripts doc ->
  attributionStyle ∉ node_id <$> jsonp_scripts doc ->
  exists doc',
    on_unload hoverAttributionStyle attributionStyle doc = (doc', Returns ()) /\
    jsonp_scripts doc' = odd_positions (jsonp_scripts doc) /\
    length (jsonp_scripts doc') = Nat.div2 (length (jsonp_scripts doc)) /\
    other_nodes doc' =
    List.filter (is_not attributionStyle)
      (List.filter (is_not hoverAttributionStyle) (other_nodes doc)).
Proof.
  intros Hnodup Hremove Hhover Hstyle.
  set (doc2 := node_remove attributionStyle (node_remove hoverAttributionStyle doc)).
  assert (Hscripts : jsonp_scripts doc2 = jsonp_scripts doc).
  { unfold doc2. rewrite !jsonp_scripts_remove.
    rewrite (filter_is_not_fresh _ _ Hhover). apply filter_is_not_fresh, Hstyle. }
  assert (Hnodup2 : NoDup (node_id <$> all_nodes doc2)).
  { unfold doc2. rewrite !all_nodes_remove. apply NoDup_filter_ids, NoDup_filter_ids, Hnodup. }
  unfold on_unload, remove_if_supported. rewrite Hremove.
  change (element_remove (node_remove hoverAttributionStyle doc)) with (element_remove doc).
  rewrite Hremove. fold doc2. fold (jsonp_scripts doc2).
  destruct (remove_scripts_spec (S (length (jsonp_scripts doc2))) 0 doc2 Hnodup2 Hremove)
    as (doc' & Hrun & Hleft & Hother); [lia|].
  exists doc'. split; [exact Hrun|]. rewrite drop_0, Hscripts in Hleft. simpl in Hleft.
  split; [exact Hleft|]. split.
  - rewrite Hleft. apply odd_positions_length.
  - rewrite Hother. unfold doc2. rewrite !other_nodes_remove_id. reflexivity.
Qed.

(** X17: where elements have no method [remove], the listener of [unload]
    leaves the document as it is, and throws as soon as there is one script
    of a lookup. *)
Theorem on_unload_without_remove (hoverAttributionStyle attributionStyle : nat)
    (doc : Document) :
  element_remove doc = false ->
  on_unload hoverAttributionStyle attributionStyle doc =
  (doc, if (0 <? length (jsonp_scripts doc))%nat then Throws TypeError else Returns ()).
Proof.
  intros Hremove. unfold on_unload, remove_if_supported. rewrite !Hremove.
  cbn [remove_scripts]. fold (jsonp_scripts doc).
  destruct (jsonp_scripts doc) as [|node l]; [reflexivity|]. simpl. rewrite Hremove.
  reflexivity.
Qed.

(** The document after [setEsriAttribution] on a map with a control that
    has not been dealt with yet. *)
Lemma setEsriAttribution_document (page : Page) (c : AttributionControl) :
  attributionControl (page_map page) = Some c ->
  _esriAttributionAdded (control page) = false ->
  exists hover style,
    node_id hover = next_id (document page) /\
    node_id style = S (next_id (document page)) /\
    className hover = [] /\ className style = [] /\
    document (setEsriAttribution attributionWidthOffset page) =
    mkDocument (doc_head (document page) ++ [hover; style]) (doc_body (document page))
               (S (S (next_id (document page)))) (element_remove (document page)) /\
    listeners (setEsriAttribution attributionWidthOffset page) =
    listeners page ++ [("resize", OnResize);
                       ("unload", OnUnload (node_id hover) (node_id style))].
Proof.
  intros Hc Hadded. unfold setEsriAttribution. rewrite Hc, Hadded. simpl.
  eexists _, _. repeat split.
  5: (unfold head_appendChild; simpl; rewrite <- app_assoc; reflexivity).
  all: try reflexivity.
  simpl. rewrite <- app_assoc. reflexivity.
Qed.

Lemma run_listeners_other (type : string) (ls : list (string * Handler)) (page : Page) :
  Forall (fun l => l.1 <> type) ls ->
  run_listeners attributionWidthOffset type ls page = (page, Returns ()).
Proof.
  induction 1 as [|[t h] ls Ht _ IH]; [reflexivity|]. simpl in *.
  destruct (String.eqb_spec t type); [contradiction|exact IH].
Qed.

Lemma run_listeners_app (type : string) (ls1 ls2 : list (string * Handler)) (page : Page) :
  Forall (fun l => l.1 <> type) ls1 ->
  run_listeners attributionWidthOffset type (ls1 ++ ls2) page =
  run_listeners attributionWidthOffset type ls2 page.
Proof.
  induction 1 as [|[t h] ls Ht _ IH]; [reflexivity|]. simpl in *.
  destruct (String.eqb_spec t type); [contradiction|exact IH].
Qed.

(** The listener of [unload] on a document whose [head] ends with the two
    styles and that holds no script of a lookup. *)
Lemma on_unload_styles (hd bd : list Node) (next : nat) (hover style : Node) (n : nat) :
  node_id hover = n -> node_id style = S n ->
  className hover = [] -> className style = [] ->
  n ∉ node_id <$> hd ++ bd -> S n ∉ node_id <$> hd ++ bd ->
  List.filter (has_class "esri-leaflet-jsonp-script") (hd ++ bd) = [] ->
  on_unload n (S n) (mkDocument (hd ++ [hover; style]) bd next true) =
  (mkDocument hd bd next true, Returns ()).
Proof.
  intros Hh Hs Hhc Hsc Hn HSn Hnone.
  rewrite fmap_app in Hn, HSn.
  apply not_elem_of_app in Hn as [Hn1 Hn2]. apply not_elem_of_app in HSn as [HSn1 HSn2].
  assert (Hfirst : node_remove n (mkDocument (hd ++ [hover; style]) bd next true) =
                   mkDocument (hd ++ [style]) bd next true).
  { unfold node_remove. cbn [doc_head doc_body next_id element_remove].
    rewrite List.filter_app, (filter_is_not_fresh n hd), (filter_is_not_fresh n bd)
      by assumption.
    cbn [List.filter]. unfold is_not. rewrite Hh, Hs, Nat.eqb_refl.
    replace (S n =? n)%nat with false by (symmetry; apply Nat.eqb_neq; lia).
    cbn [negb]. reflexivity. }
  assert (Hsecond : node_remove (S n) (mkDocument (hd ++ [style]) bd next true) =
                    mkDocument hd bd next true).
  { unfold node_remove. cbn [doc_head doc_body next_id element_remove].
    rewrite List.filter_app, (filter_is_not_fresh (S n) hd), (filter_is_not_fresh (S n) bd)
      by assumption.
    cbn [List.filter]. unfold is_not. rewrite Hs, Nat.eqb_refl. cbn [negb].
    rewrite app_nil_r. reflexivity. }
  unfold on_unload, remove_if_supported. cbn [element_remove].
  rewrite Hfirst. cbn [element_remove]. rewrite Hsecond.
  unfold getElementsByClassName, all_nodes. cbn [doc_head doc_body]. rewrite Hnone.
  cbn [length remove_scripts]. unfold getElementsByClassName, all_nodes.
  cbn [doc_head doc_body]. rewrite Hnone. reflexivity.
Qed.

(** X18: what [setEsriAttribution] puts into the document, its listener of
    [unload] takes out again: on a page without scripts of lookups, the
    call followed by the event [unload] leaves [head] and the rest of the
    document exactly as they were before the call. *)
Theorem setEsriAttribution_then_unload (page : Page) :
  well_formed (document page) ->
  element_remove (document page) = true ->
  attributionControl (page_map page) <> None ->
  _esriAttributionAdded (control page) = false ->
  Forall (fun l => l.1 <> "unload") (listeners page) ->
  jsonp_scripts (document page) = [] ->
  exists page',
    fire attributionWidthOffset "unload" (setEsriAttribution attributionWidthOffset page)
    = (page', Returns ()) /\
    doc_head (document page') = doc_head (document page) /\
    doc_body (document page') = doc_body (document page) /\
    length (doc_head (document (setEsriAttribution attributionWidthOffset page))) =
    S (S (length (doc_head (document page)))).
Proof.
  intros [Hnodup Hbelow] Hremove Hcontrol Hadded Hls Hnone.
  destruct (attributionControl (page_map page)) as [c|] eqn:Hc; [clear Hcontrol|congruence].
  destruct (setEsriAttribution_document page c Hc Hadded)
    as (hover & style & Hh & Hs & Hhc & Hsc & Hdoc & Hlisteners).
  unfold fire. rewrite Hlisteners, (run_listeners_app _ _ _ _ Hls).
  assert (Hfresh : forall k, (next_id (document page) <= k)%nat ->
                     k ∉ node_id <$> doc_head (document page) ++ doc_body (document page)).
  { intros k Hk Hin. apply list_elem_of_fmap in Hin as (node & -> & Hin).
    rewrite Forall_forall in Hbelow. specialize (Hbelow node Hin). lia. }
  cbn [run_listeners]. change ("resize" =? "unload")%string with false.
  change ("unload" =? "unload")%string with true. cbv iota. cbn [handle].
  rewrite Hdoc, Hremove, Hh, Hs.
  rewrite (on_unload_styles _ _ _ hover style (next_id (document page)) Hh Hs Hhc Hsc
             (Hfresh _ (Nat.le_refl _)) (Hfresh _ (Nat.le_succ_diag_r _)) Hnone).
  eexists. split; [reflexivity|]. cbn [document doc_head doc_body].
  repeat split. rewrite length_app. simpl. lia.
Qed.

End StyleProperties.

(** X16 on the sample page, with five scripts of lookups in its document:
    the second and the fourth stay. *)
Lemma on_unload_leaves_every_second_script_witness :
  exists doc',
    on_unload 7 8 (document (setEsriAttribution (Qc_of_Z 55) sample_page))
    = (doc', Returns ()) /\
    jsonp_scripts doc' = [sample_script 3; sample_script 5] /\
    length (jsonp_scripts doc') = 2%nat /\
    other_nodes doc' = other_nodes sample_document.
Proof.
  apply (on_unload_leaves_every_second_script 7 8
           (document (setEsriAttribution (Qc_of_Z 55) sample_page)));
    first [reflexivity | apply (bool_decide_unpack _); vm_compute; exact I].
Defined.

(** X17 in a browser without [remove]. *)
Lemma on_unload_without_remove_witness :
  on_unload 7 8 (mkDocument [] [sample_script 2] 3 false) =
  (mkDocument [] [sample_script 2] 3 false, Throws TypeError).
Proof.
  exact (on_unload_without_remove 7 8 (mkDocument [] [sample_script 2] 3 false) eq_refl).
Defined.

(** X18 on a page with a title and the container of the map. *)
Lemma setEsriAttribution_then_unload_witness :
  let page :=
    mkPage (sample_map "Esri")
           (mkControlState "Leaflet" ["leaflet-control-attribution"] None false)
           [("resize", OnResize)]
           (mkDocument [mkNode 0 "title" "" [Text "map"] []]
                       [mkNode 1 "div" "" [] ["leaflet-container"]] 2 true) in
  exists page',
    fire (Qc_of_Z 55) "unload" (setEsriAttribution (Qc_of_Z 55) page) = (page', Returns ()) /\
    doc_head (document page') = doc_head (document page) /\
    doc_body (document page') = doc_body (document page) /\
    length (doc_head (document (setEsriAttribution (Qc_of_Z 55) page))) = 3%nat.
Proof.
  apply (setEsriAttribution_then_unload (Qc_of_Z 55)
           (mkPage (sample_map "Esri")
              (mkControlState "Leaflet" ["leaflet-control-attribution"] None false)
              [("resize", OnResize)]
              (mkDocument [mkNode 0 "title" "" [Text "map"] []]
                          [mkNode 1 "div" "" [] ["leaflet-container"]] 2 true)));
    try reflexivity.
  - split; [apply (bool_decide_unpack _); vm_compute; exact I|].
    repeat constructor.
  - discriminate.
  - repeat constructor. discriminate.
Defined.
